(** * service-ca-operator: status aggregation and CA-bundle injection

    A shallow embedding of

    - [syncStatus] and its helpers (package [operator]), the tiered
      readiness algorithm that turns the states of the managed deployments
      into the operator's Available / Progressing / Failing conditions, and
    - [Sync] / [ensureConfigMapCABundleInjection] (package [controller],
      [configmapcainjector]), which writes the CA bundle into annotated
      ConfigMaps,

    followed by the properties of both that the specification states. *)

From stdpp Require Import base option strings list gmap.
From Stdlib Require Import ZArith Lia.

Local Open Scope Z_scope.
Local Open Scope string_scope.
Local Open Scope list_scope.

(** A Go [error] as the two packages observe it: [apierrors.IsNotFound err]
    and [err.Error()]. A [nil] error is [None] of [option error]. *)
Record error : Type := mkError {
  IsNotFound : bool;
  ErrorString : string
}.

#[global] Instance error_eq_dec : EqDecision error.
Proof. solve_decision. Defined.

(* ===================================================================== *)
(** * Package [operator] *)
(* ===================================================================== *)

Module Operator.

(** ** Operator conditions (openshift/api [operatorv1]) *)

Inductive ConditionStatus : Type :=
  | ConditionTrue
  | ConditionFalse
  | ConditionUnknown.

#[global] Instance ConditionStatus_eq_dec : EqDecision ConditionStatus.
Proof. solve_decision. Defined.

Record OperatorCondition : Type := mkCondition {
  CondType : string;
  Status : ConditionStatus;
  Reason : string;
  Message : string
}.

#[global] Instance OperatorCondition_eq_dec : EqDecision OperatorCondition.
Proof. solve_decision. Defined.

(** The fixed condition names of the condition contract. *)
Definition OperatorStatusTypeAvailable : string := "Available".
Definition OperatorStatusTypeProgressing : string := "Progressing".
Definition OperatorStatusTypeFailing : string := "Failing".

(** Modelled from the spec: [v1helpers.FindOperatorCondition] belongs to the
    vendored library-go helpers, which are not part of the sources at hand.
    Each condition name appears at most once in a condition set; the lookup
    returns the first condition carrying the given name. *)
Fixpoint FindOperatorCondition (conditions : list OperatorCondition)
    (conditionType : string) : option OperatorCondition :=
  match conditions with
  | [] => None
  | c :: rest =>
      if decide (CondType c = conditionType) then Some c
      else FindOperatorCondition rest conditionType
  end.

(** Modelled from the spec: [v1helpers.SetOperatorCondition] belongs to the
    vendored library-go helpers, which are not part of the sources at hand.
    The condition set is an ordered collection in which every name appears
    at most once; an update replaces the condition of that name in place
    (status, reason and message) and keeps the relative order of all the
    others; a name that is not yet present is added at the end. *)
Fixpoint SetOperatorCondition (conditions : list OperatorCondition)
    (newCondition : OperatorCondition) : list OperatorCondition :=
  match conditions with
  | [] => [newCondition]
  | c :: rest =>
      if decide (CondType c = CondType newCondition)
      then mkCondition (CondType c) (Status newCondition)
                       (Reason newCondition) (Message newCondition) :: rest
      else c :: SetOperatorCondition rest newCondition
  end.

(** ** Deployments (k8s [appsv1]) *)

(** The replica counters are [int32] and the generations [int64]; the code
    only compares them, so they are integers without any arithmetic. *)
Record DeploymentStatus : Type := mkDeploymentStatus {
  ObservedGeneration : Z;
  Replicas : Z;
  UpdatedReplicas : Z;
  AvailableReplicas : Z
}.

Record Deployment : Type := mkDeployment {
  Generation : Z;
  DeletionTimestamp : option Z;   (* [*metav1.Time], [None] is the nil pointer *)
  SpecReplicas : option Z;        (* [Spec.Replicas], a [*int32] *)
  DStatus : DeploymentStatus
}.

(** The pair [(existing, err)] returned by [Deployments(ns).Get]. *)
Inductive GetResult : Type :=
  | GetOk (existing : Deployment)
  | GetErr (err : error).

(** The receiver [c *serviceCAOperator]: the only field [syncStatus] reads
    is the deployments client, a snapshot of the store by name. *)
Record serviceCAOperator : Type := mkOperator {
  appsv1Client : string → GetResult
}.

(** ** State threaded through [syncStatus]

    [Conditions] is [operatorConfig.Status.Conditions], mutated through the
    pointer the caller passes; [Fetched] logs the names handed to the
    deployments client, oldest first. *)
Record State : Type := mkState {
  Conditions : list OperatorCondition;
  Fetched : list string
}.

Definition M (A : Type) : Type := State → A * State.

#[global] Instance M_ret : MRet M := λ A (a : A) s, (a, s).
#[global] Instance M_bind : MBind M :=
  λ A B (f : A → M B) (m : M A) s, let '(a, s') := m s in f a s'.

Definition setCondition (c : OperatorCondition) : M unit :=
  λ s, (tt, mkState (SetOperatorCondition (Conditions s) c) (Fetched s)).

Definition getDeployment (c : serviceCAOperator) (dep : string) : M GetResult :=
  λ s, (appsv1Client c dep, mkState (Conditions s) (Fetched s ++ [dep])).

(** ** The condition setters *)

Definition setFailingTrue (reason message : string) : M unit :=
  setCondition (mkCondition OperatorStatusTypeFailing ConditionTrue reason message).

Definition setFailingFalse (reason : string) : M unit :=
  setCondition (mkCondition OperatorStatusTypeFailing ConditionFalse reason EmptyString).

Definition setProgressingTrue (reason message : string) : M unit :=
  setCondition (mkCondition OperatorStatusTypeProgressing ConditionTrue reason message).

Definition setAvailableTrue (reason : string) : M unit :=
  setCondition (mkCondition OperatorStatusTypeAvailable ConditionTrue reason EmptyString).

Definition setProgressingFalse (reason message : string) : M unit :=
  setCondition (mkCondition OperatorStatusTypeProgressing ConditionFalse reason message).

Definition setAvailableFalse (reason message : string) : M unit :=
  setCondition (mkCondition OperatorStatusTypeAvailable ConditionFalse reason message).

(** ** The per-deployment predicates *)

Definition isDeploymentStatusAvailable (deploy : Deployment) : bool :=
  bool_decide (AvailableReplicas (DStatus deploy) > 0).

Definition isDeploymentStatusAvailableAndUpdated (deploy : Deployment) : bool :=
  bool_decide (AvailableReplicas (DStatus deploy) > 0) &&
  bool_decide (ObservedGeneration (DStatus deploy) >= Generation deploy) &&
  bool_decide (UpdatedReplicas (DStatus deploy) = Replicas (DStatus deploy)).

Definition isDeploymentStatusComplete (deploy : Deployment) : bool :=
  let replicas := match SpecReplicas deploy with
                  | Some r => r
                  | None => 1
                  end in
  bool_decide (UpdatedReplicas (DStatus deploy) = replicas) &&
  bool_decide (Replicas (DStatus deploy) = replicas) &&
  bool_decide (AvailableReplicas (DStatus deploy) = replicas) &&
  bool_decide (ObservedGeneration (DStatus deploy) >= Generation deploy).

(** ** [syncStatus] *)

(** The local variables of [syncStatus]. The three counters are Go [int]s
    that are incremented at most once per element of [deployments], so they
    never exceed [len(deployments)] and cannot wrap. *)
Record locals : Type := mkLocals {
  version_ready : Z;
  existingDeploymentsAndReplicas : Z;
  deployment_complete : Z;
  statusMsg : string
}.

Definition initLocals : locals := mkLocals 0 0 0 EmptyString.

Definition withStatusMsg (l : locals) (msg : string) : locals :=
  mkLocals (version_ready l) (existingDeploymentsAndReplicas l)
           (deployment_complete l) msg.

(** What the function hands back: [(bool, error)], [None] being [nil]. *)
Definition ret : Type := bool * option error.

(** One iteration of the [for _, dep := range deployments] loop. The second
    component is [Some r] when the iteration executes [return r]. *)
Definition loopBody (c : serviceCAOperator) (dep : string) (l : locals)
    : M (locals * option ret) :=
  let reason := "ManagedDeploymentsNotReady" in
  r ← getDeployment c dep;
  match r with
  | GetErr err =>
      if IsNotFound err then
        let l := withStatusMsg l ("Deployment " +:+ dep +:+ " does not exist") in
        _ ← setProgressingTrue reason (statusMsg l);
        _ ← setAvailableFalse reason (statusMsg l);
        mret (l, Some (false, None))
      else
        let l := withStatusMsg l ("Error getting deployment " +:+ dep) in
        _ ← setFailingTrue (statusMsg l) (ErrorString err);
        _ ← setAvailableFalse reason (statusMsg l);
        mret (l, Some (false, Some err))
  | GetOk existing =>
      if bool_decide (DeletionTimestamp existing ≠ None) then
        let l := withStatusMsg l ("Deployment " +:+ dep +:+ " is being deleted") in
        _ ← setProgressingTrue reason (statusMsg l);
        _ ← setAvailableFalse reason (statusMsg l);
        mret (l, Some (false, None))
      else if negb (isDeploymentStatusAvailable existing) then
        let l := withStatusMsg l
                   ("Deployment " +:+ dep +:+ " does not have available replicas") in
        _ ← setProgressingTrue reason (statusMsg l);
        _ ← setAvailableFalse reason (statusMsg l);
        mret (l, Some (false, None))
      else
        let l := mkLocals (version_ready l) (existingDeploymentsAndReplicas l + 1)
                          (deployment_complete l) (statusMsg l) in
        let l :=
          if isDeploymentStatusComplete existing
          then mkLocals (version_ready l) (existingDeploymentsAndReplicas l)
                        (deployment_complete l + 1) (statusMsg l)
          else withStatusMsg l ("Deployment " +:+ dep +:+ " is creating replicas.") in
        let l :=
          if isDeploymentStatusAvailableAndUpdated existing
          then mkLocals (version_ready l + 1) (existingDeploymentsAndReplicas l)
                        (deployment_complete l) (statusMsg l)
          else withStatusMsg l ("Deployment " +:+ dep +:+ " is updating") in
        mret (l, None)
  end.

Fixpoint loop (c : serviceCAOperator) (deployments : list string) (l : locals)
    : M (locals * option ret) :=
  match deployments with
  | [] => mret (l, None)
  | dep :: rest =>
      '(l', r) ← loopBody c dep l;
      match r with
      | Some x => mret (l', Some x)
      | None => loop c rest l'
      end
  end.

(** The statements after the loop: the readiness tiers, highest first. *)
Definition afterLoop (len : Z) (l : locals) : M ret :=
  if bool_decide (deployment_complete l = len) then
    let reason := "ManagedDeploymentsCompleteAndUpdated" in
    _ ← setAvailableTrue reason;
    _ ← setProgressingFalse reason "All service-ca-operator deployments updated";
    mret (true, None)
  else if bool_decide (version_ready l = len) then
    let reason := "ManagedDeploymentsAvailableAndUpdated" in
    _ ← setAvailableTrue reason;
    _ ← setProgressingTrue reason (statusMsg l);
    mret (true, None)
  else if bool_decide (existingDeploymentsAndReplicas l = len) then
    let reason := "ManagedDeploymentsAvailable" in
    _ ← setAvailableTrue reason;
    _ ← setProgressingTrue reason (statusMsg l);
    mret (false, None)
  else
    mret (false, None).

(** [syncStatus] together with the final values of its local variables. *)
Definition syncStatusLocals (c : serviceCAOperator) (deployments : list string)
    : M (locals * ret) :=
  '(l, r) ← loop c deployments initLocals;
  match r with
  | Some x => mret (l, x)
  | None =>
      x ← afterLoop (Z.of_nat (length deployments)) l;
      mret (l, x)
  end.

Definition syncStatus (c : serviceCAOperator) (deployments : list string)
    : M ret :=
  '(_, r) ← syncStatusLocals c deployments;
  mret r.

End Operator.

(* ===================================================================== *)
(** * Package [controller] (configmapcainjector) *)
(* ===================================================================== *)

Module Injector.

(** The fields of [corev1.ConfigMap] the controller touches. A nil Go map
    and an empty one behave alike under lookup and [len], both are [∅]. *)
Record ConfigMap : Type := mkConfigMap {
  Namespace : string;
  Name : string;
  Annotations : gmap string string;
  Data : gmap string string
}.

#[global] Instance ConfigMap_eq_dec : EqDecision ConfigMap.
Proof. solve_decision. Defined.

(** The receiver [ic]. [configMapClient] gives the error with which
    [ConfigMaps(ns).Update] answers for a submitted object ([None] is
    [nil]); the lister is not used by [Sync]. *)
Record configMapCABundleInjectionController : Type := mkController {
  configMapClient : ConfigMap → option error;
  ca : string
}.

(** ** State threaded through [Sync]

    [Sync] receives a pointer into the informer cache and works on a deep
    copy, so objects live in a heap addressed by index. [Updates] logs the
    objects submitted to the store, oldest first, each as it was when
    [Update] was called. *)
Record State : Type := mkState {
  Heap : list ConfigMap;
  Updates : list ConfigMap
}.

(** [None] is the panic of dereferencing a pointer that holds no object. *)
Definition M (A : Type) : Type := State → option (A * State).

#[global] Instance M_ret : MRet M := λ A (a : A) s, Some (a, s).
#[global] Instance M_bind : MBind M :=
  λ A B (f : A → M B) (m : M A) s,
    match m s with
    | Some (a, s') => f a s'
    | None => None
    end.

Definition deref (p : nat) : M ConfigMap :=
  λ s, cm ← Heap s !! p; Some (cm, s).

Definition DeepCopy (p : nat) : M nat :=
  λ s, cm ← Heap s !! p;
       Some (length (Heap s), mkState (Heap s ++ [cm]) (Updates s)).

Definition setData (p : nat) (data : gmap string string) : M unit :=
  λ s, cm ← Heap s !! p;
       Some (tt, mkState (<[p := mkConfigMap (Namespace cm) (Name cm)
                                             (Annotations cm) data]> (Heap s))
                         (Updates s)).

Definition Update (ic : configMapCABundleInjectionController) (p : nat)
    : M (option error) :=
  λ s, cm ← Heap s !! p;
       Some (configMapClient ic cm, mkState (Heap s) (Updates s ++ [cm])).

Section Api.

(** Package [api] is not part of the sources at hand: its annotation
    predicate and its data key are parameters of the controller. *)
Variable HasInjectCABundleAnnotation : ConfigMap → bool.
Variable InjectionDataKey : string.

Definition ensureConfigMapCABundleInjection
    (ic : configMapCABundleInjectionController) (current : nat)
    : M (option error) :=
  configMapCopy ← DeepCopy current;
  copied ← deref configMapCopy;
  if match Data copied !! InjectionDataKey with
     | Some data => bool_decide (data = ca ic) &&
                    bool_decide (size (Data copied) = 1%nat)
     | None => false
     end
  then mret None
  else
    _ ← setData configMapCopy {[ InjectionDataKey := ca ic ]};
    Update ic configMapCopy.

Definition Sync (ic : configMapCABundleInjectionController) (obj : nat)
    : M (option error) :=
  sharedConfigMap ← deref obj;
  if negb (HasInjectCABundleAnnotation sharedConfigMap) then mret None
  else ensureConfigMapCABundleInjection ic obj.

(** Two calls of [Sync] in a row on the same object. *)
Definition SyncTwice (ic : configMapCABundleInjectionController) (obj : nat)
    : M (option error) :=
  _ ← Sync ic obj;
  Sync ic obj.

End Api.

End Injector.

(* ===================================================================== *)
(** * Vocabulary of the properties *)
(* ===================================================================== *)

Module StatusSpec.
Import Operator.

(** [dep] passes the three disqualification checks of the loop: it is
    fetched without error, carries no deletion timestamp and has an
    available replica. *)
Definition qualifies (c : serviceCAOperator) (dep : string) : bool :=
  match appsv1Client c dep with
  | GetOk existing =>
      bool_decide (DeletionTimestamp existing = None) &&
      isDeploymentStatusAvailable existing
  | GetErr _ => false
  end.

(** [dep] is counted in [deployment_complete]. *)
Definition classifiedComplete (c : serviceCAOperator) (dep : string) : bool :=
  match appsv1Client c dep with
  | GetOk existing => qualifies c dep && isDeploymentStatusComplete existing
  | GetErr _ => false
  end.

(** [dep] is counted in [version_ready]. *)
Definition classifiedVersionReady (c : serviceCAOperator) (dep : string) : bool :=
  match appsv1Client c dep with
  | GetOk existing =>
      qualifies c dep && isDeploymentStatusAvailableAndUpdated existing
  | GetErr _ => false
  end.

(** Number of elements of a list, as a Go [int], that satisfy a test. *)
Fixpoint countZ (p : string → bool) (l : list string) : Z :=
  match l with
  | [] => 0
  | x :: rest => (if p x then 1 else 0) + countZ p rest
  end.

(** The message left in [statusMsg] by an iteration that does not return. *)
Definition msgAfter (c : serviceCAOperator) (dep : string) (msg : string) : string :=
  if classifiedVersionReady c dep then
    if classifiedComplete c dep then msg
    else "Deployment " +:+ dep +:+ " is creating replicas."
  else "Deployment " +:+ dep +:+ " is updating".

(** The local variables after an iteration that does not return. *)
Definition tally (c : serviceCAOperator) (dep : string) (l : locals) : locals :=
  mkLocals (version_ready l + (if classifiedVersionReady c dep then 1 else 0))
           (existingDeploymentsAndReplicas l + 1)
           (deployment_complete l + (if classifiedComplete c dep then 1 else 0))
           (msgAfter c dep (statusMsg l)).

(** The two condition writes of an iteration that returns. *)
Definition notReady (first : OperatorCondition) (msg : string)
    (conds : list OperatorCondition) : list OperatorCondition :=
  SetOperatorCondition (SetOperatorCondition conds first)
    (mkCondition OperatorStatusTypeAvailable ConditionFalse
                 "ManagedDeploymentsNotReady" msg).

Definition progressingNotReady (msg : string) : OperatorCondition :=
  mkCondition OperatorStatusTypeProgressing ConditionTrue
              "ManagedDeploymentsNotReady" msg.

(** What the iteration for [dep] does when it returns: the condition it
    writes before Available=False, the message, and the returned pair.
    [None] when the iteration falls through to the counters. *)
Definition exitOf (c : serviceCAOperator) (dep : string)
    : option (OperatorCondition * string * ret) :=
  match appsv1Client c dep with
  | GetErr err =>
      if IsNotFound err then
        let msg := "Deployment " +:+ dep +:+ " does not exist" in
        Some (progressingNotReady msg, msg, (false, None))
      else
        let msg := "Error getting deployment " +:+ dep in
        Some (mkCondition OperatorStatusTypeFailing ConditionTrue msg
                          (ErrorString err), msg, (false, Some err))
  | GetOk existing =>
      if bool_decide (DeletionTimestamp existing ≠ None) then
        let msg := "Deployment " +:+ dep +:+ " is being deleted" in
        Some (progressingNotReady msg, msg, (false, None))
      else if negb (isDeploymentStatusAvailable existing) then
        let msg := "Deployment " +:+ dep +:+ " does not have available replicas" in
        Some (progressingNotReady msg, msg, (false, None))
      else None
  end.

(** The local variables after a run of iterations none of which returns. *)
Definition tallyAll (c : serviceCAOperator) (deps : list string) (l : locals)
    : locals :=
  foldl (λ l dep, tally c dep l) l deps.

(** The three condition names [syncStatus] writes. *)
Definition managedType (t : string) : bool :=
  bool_decide (t = OperatorStatusTypeAvailable) ||
  bool_decide (t = OperatorStatusTypeProgressing) ||
  bool_decide (t = OperatorStatusTypeFailing).

End StatusSpec.

Module InjectorSpec.
Import Injector.

(** The object [Update] receives for [cm]: a copy whose data mapping is
    replaced by the single entry for the injection key. *)
Definition injected (key value : string) (cm : ConfigMap) : ConfigMap :=
  mkConfigMap (Namespace cm) (Name cm) (Annotations cm) {[ key := value ]}.

(** Number of [Update] calls a computation issues from state [s]; [None]
    when it panics. *)
Definition updatesIssued {A : Type} (m : M A) (s : State) : option nat :=
  match m s with
  | Some (_, s') => Some (length (Updates s') - length (Updates s))%nat
  | None => None
  end.

(** A [Sync] on [obj] followed by a [Sync] on the object at [stored]. *)
Definition SyncThenSync (has : ConfigMap → bool) (key : string)
    (ic : configMapCABundleInjectionController) (obj stored : nat)
    : M (option error) :=
  _ ← Sync has key ic obj;
  Sync has key ic stored.

End InjectorSpec.

(* ===================================================================== *)
(** * Sample inputs *)
(* ===================================================================== *)

Module Samples.
Import Operator Injector.

(** Two of two replicas updated and available, generation observed. *)
Definition rolledOut : Deployment :=
  mkDeployment 3 None (Some 2) (mkDeploymentStatus 3 2 2 2).

(** One updated replica available, one replica of the previous revision
    still counted. *)
Definition rolling : Deployment :=
  mkDeployment 3 None (Some 2) (mkDeploymentStatus 3 2 1 1).

(** Three replicas desired, one created so far, updated and available. *)
Definition scalingUp : Deployment :=
  mkDeployment 3 None (Some 3) (mkDeploymentStatus 3 1 1 1).

Definition terminating : Deployment :=
  mkDeployment 3 (Some 1700000000) (Some 2) (mkDeploymentStatus 3 2 2 2).

(** [Spec.Replicas] unset; the one replica is not available yet. *)
Definition starting : Deployment :=
  mkDeployment 1 None None (mkDeploymentStatus 1 1 1 0).

(** Being deleted, and none of its replicas available any more. *)
Definition draining : Deployment :=
  mkDeployment 3 (Some 1700000000) (Some 2) (mkDeploymentStatus 3 2 2 0).

Definition timeout : error := mkError false "context deadline exceeded".
Definition notFound : error := mkError true "deployments.apps not found".

Definition cluster : serviceCAOperator :=
  mkOperator (λ dep,
    if decide (dep = "signer") then GetOk rolledOut
    else if decide (dep = "apiservice-injector") then GetOk rolling
    else if decide (dep = "configmap-injector") then GetOk scalingUp
    else if decide (dep = "terminating") then GetOk terminating
    else if decide (dep = "starting") then GetOk starting
    else if decide (dep = "draining") then GetOk draining
    else if decide (dep = "unreachable") then GetErr timeout
    else GetErr notFound).

(** The same cluster after the deployment [starting] has been removed and
    [configmap-injector] has finished rolling out. *)
Definition clusterLater : serviceCAOperator :=
  mkOperator (λ dep,
    if decide (dep = "starting") then GetErr notFound
    else if decide (dep = "configmap-injector") then GetOk rolledOut
    else appsv1Client cluster dep).

Definition before : Operator.State :=
  Operator.mkState
    [ mkCondition "Upgradeable" ConditionTrue "AsExpected" EmptyString;
      mkCondition "Failing" ConditionTrue "OperatorSyncLoopError" "boom";
      mkCondition "Available" ConditionFalse "Init" EmptyString ]
    [].

(** Modelled from the spec: package [api] is not part of the sources at
    hand. An object is eligible for injection when it bears the trigger
    annotation, whose name the comment on the controller type gives. *)
Definition hasInjectAnnotation (cm : ConfigMap) : bool :=
  bool_decide (is_Some (Annotations cm !! "service.alpha.openshift.io/inject-cabundle")).

Definition dataKey : string := "service-ca.crt".

Definition injector : configMapCABundleInjectionController :=
  mkController (λ _, None) "-----BEGIN CERTIFICATE-----".

Definition annotated : ConfigMap :=
  mkConfigMap "ns" "trusted"
    {[ "service.alpha.openshift.io/inject-cabundle" := "true" ]}
    {[ "other" := "kept?" ]}.

Definition plain : ConfigMap :=
  mkConfigMap "ns" "settings" ∅ {[ "other" := "kept" ]}.

Definition cache : Injector.State := Injector.mkState [annotated; plain] [].

End Samples.

Module MoreSamples.
Import Operator Injector Samples.

(** Scaled to zero replicas and settled there. *)
Definition scaledDown : Deployment :=
  mkDeployment 4 None (Some 0) (mkDeploymentStatus 4 0 0 0).

(** The sample cluster with one more deployment, scaled to zero. *)
Definition clusterIdle : serviceCAOperator :=
  mkOperator (λ dep,
    if decide (dep = "scaled-down") then GetOk scaledDown
    else appsv1Client cluster dep).

(** Conditions as a complete rollout leaves them. *)
Definition settled : Operator.State :=
  Operator.mkState
    [ mkCondition "Available" ConditionTrue
                  "ManagedDeploymentsCompleteAndUpdated" EmptyString;
      mkCondition "Progressing" ConditionFalse
                  "ManagedDeploymentsCompleteAndUpdated"
                  "All service-ca-operator deployments updated";
      mkCondition "Upgradeable" ConditionTrue "AsExpected" EmptyString ]
    [].

Definition conflict : error :=
  mkError false "the object has been modified".

(** An injector whose store rejects every update. *)
Definition rejected : configMapCABundleInjectionController :=
  mkController (λ _, Some conflict) "-----BEGIN CERTIFICATE-----".

(** A ConfigMap that holds the injection key with an outdated bundle. *)
Definition outdated : ConfigMap :=
  mkConfigMap "ns" "trusted"
    {[ "service.alpha.openshift.io/inject-cabundle" := "true" ]}
    {[ "service-ca.crt" := "-----OLD CERTIFICATE-----" ]}.

Definition staleCache : Injector.State := Injector.mkState [outdated] [].

End MoreSamples.

(* ===================================================================== *)
(** * Properties of [syncStatus] *)
(* ===================================================================== *)

Import Operator StatusSpec.

Ltac run_M :=
  unfold setProgressingTrue, setProgressingFalse, setAvailableTrue,
         setAvailableFalse, setFailingTrue, setCondition, getDeployment;
  unfold mbind, mret, Operator.M_bind, Operator.M_ret; simpl.

Section Conditions.

Implicit Types (conds : list OperatorCondition) (c : OperatorCondition).

Lemma Find_Set_same conds c :
  FindOperatorCondition (SetOperatorCondition conds c) (CondType c) = Some c.
Proof.
  induction conds as [|c0 rest IH]; simpl.
  - rewrite decide_True by done. done.
  - destruct (decide (CondType c0 = CondType c)) as [E|NE]; simpl.
    + rewrite decide_True by done. rewrite E. by destruct c.
    + rewrite decide_False by done. exact IH.
Qed.

Lemma Find_Set_other conds c t :
  CondType c ≠ t →
  FindOperatorCondition (SetOperatorCondition conds c) t =
  FindOperatorCondition conds t.
Proof.
  intros Hne. induction conds as [|c0 rest IH]; simpl.
  - by rewrite decide_False.
  - destruct (decide (CondType c0 = CondType c)) as [E|NE]; simpl.
    + rewrite !decide_False by congruence. done.
    + destruct (decide (CondType c0 = t)); [done | exact IH].
Qed.

(** Writing a condition named Available, Progressing or Failing leaves the
    conditions of every other name, and their order, as they were. *)
Lemma filter_Set_managed conds c :
  managedType (CondType c) = true →
  filter (λ x, managedType (CondType x) = false) (SetOperatorCondition conds c) =
  filter (λ x, managedType (CondType x) = false) conds.
Proof.
  intros Hk. induction conds as [|c0 rest IH]; simpl.
  - rewrite filter_cons_False; [done | congruence].
  - destruct (decide (CondType c0 = CondType c)) as [E|NE].
    + rewrite !filter_cons_False; [done | | ]; simpl; rewrite ?E; congruence.
    + rewrite !filter_cons. by rewrite IH.
Qed.

End Conditions.

Section Loop.

Variable c : serviceCAOperator.

Lemma qualifies_exitOf dep : qualifies c dep = true ↔ exitOf c dep = None.
Proof.
  unfold qualifies, exitOf.
  destruct (appsv1Client c dep) as [existing|err].
  - destruct (DeletionTimestamp existing) as [t|]; simpl.
    + split; discriminate.
    + destruct (isDeploymentStatusAvailable existing); simpl; split;
        (done || discriminate).
  - destruct (IsNotFound err); split; discriminate.
Qed.

Lemma loopBody_eq dep l s :
  loopBody c dep l s =
  match exitOf c dep with
  | Some (first, msg, r) =>
      ((withStatusMsg l msg, Some r),
       mkState (notReady first msg (Conditions s)) (Fetched s ++ [dep]))
  | None =>
      ((tally c dep l, None), mkState (Conditions s) (Fetched s ++ [dep]))
  end.
Proof.
  unfold loopBody, exitOf, tally, msgAfter, classifiedComplete,
    classifiedVersionReady, qualifies, notReady, progressingNotReady.
  run_M.
  destruct (appsv1Client c dep) as [existing|err]; simpl.
  - destruct (DeletionTimestamp existing) as [t|] eqn:Hdel; simpl.
    + done.
    + destruct (isDeploymentStatusAvailable existing); simpl; [|done].
      destruct (isDeploymentStatusComplete existing),
        (isDeploymentStatusAvailableAndUpdated existing);
        unfold withStatusMsg; simpl; by rewrite ?Z.add_0_r.
  - destruct (IsNotFound err); done.
Qed.

Lemma loop_cons dep rest l s :
  loop c (dep :: rest) l s =
  match exitOf c dep with
  | Some (first, msg, r) =>
      ((withStatusMsg l msg, Some r),
       mkState (notReady first msg (Conditions s)) (Fetched s ++ [dep]))
  | None =>
      loop c rest (tally c dep l) (mkState (Conditions s) (Fetched s ++ [dep]))
  end.
Proof.
  simpl. unfold mbind at 1. unfold Operator.M_bind. rewrite loopBody_eq.
  destruct (exitOf c dep) as [[[first msg] r]|]; done.
Qed.

(** A prefix of qualifying deployments only moves the counters and the
    fetch log; the conditions are not touched. *)
Lemma loop_app_qualifies pre rest l s :
  Forall (λ dep, qualifies c dep = true) pre →
  loop c (pre ++ rest) l s =
  loop c rest (tallyAll c pre l) (mkState (Conditions s) (Fetched s ++ pre)).
Proof.
  intros Hpre. revert l s.
  induction Hpre as [|dep pre Hq _ IH]; intros l s.
  - simpl. rewrite app_nil_r. by destruct s.
  - rewrite <- app_comm_cons, loop_cons.
    apply qualifies_exitOf in Hq. rewrite Hq.
    rewrite IH. simpl. by rewrite <- app_assoc.
Qed.

Lemma loop_nil l s : loop c [] l s = ((l, None), s).
Proof. done. Qed.

(** Either every deployment qualifies, or there is a first one that does
    not. *)
Lemma first_disqualified (deployments : list string) :
  Forall (λ dep, qualifies c dep = true) deployments ∨
  ∃ pre dep post,
    deployments = pre ++ dep :: post ∧
    Forall (λ dep, qualifies c dep = true) pre ∧
    qualifies c dep = false.
Proof.
  induction deployments as [|dep rest IH].
  - by left.
  - destruct (qualifies c dep) eqn:Hq.
    + destruct IH as [Hall|(pre & d & post & -> & Hpre & Hd)].
      * left. by constructor.
      * right. exists (dep :: pre), d, post. repeat split; [|done].
        by constructor.
    + right. exists [], dep, rest. by repeat split.
Qed.

Lemma tallyAll_counters deps l :
  version_ready (tallyAll c deps l) =
    version_ready l + countZ (classifiedVersionReady c) deps ∧
  existingDeploymentsAndReplicas (tallyAll c deps l) =
    existingDeploymentsAndReplicas l + Z.of_nat (length deps) ∧
  deployment_complete (tallyAll c deps l) =
    deployment_complete l + countZ (classifiedComplete c) deps.
Proof.
  revert l. induction deps as [|dep rest IH]; intros l.
  - simpl. lia.
  - unfold tallyAll in *. simpl foldl.
    destruct (IH (tally c dep l)) as (-> & -> & ->).
    simpl. lia.
Qed.

Lemma countZ_bounds (p : string → bool) (l : list string) :
  (0 ≤ countZ p l ≤ Z.of_nat (length l))%Z.
Proof.
  induction l as [|x rest IH]; simpl; [lia|]. destruct (p x); lia.
Qed.

Lemma countZ_all (p : string → bool) (l : list string) :
  countZ p l = Z.of_nat (length l) ↔ Forall (λ x, p x = true) l.
Proof.
  induction l as [|x rest IH]; simpl.
  - split; [by constructor | done].
  - pose proof (countZ_bounds p rest) as Hb.
    destruct (p x) eqn:Hp; split.
    + intros H. constructor; [done|]. apply IH. lia.
    + intros H. inversion H; subst. apply IH in H3. lia.
    + intros H. lia.
    + intros H. inversion H; subst. congruence.
Qed.

End Loop.

Section SyncStatus.

Variable c : serviceCAOperator.

Local Abbreviation qualifying := (Forall (λ dep, qualifies c dep = true)).

Lemma syncStatusLocals_exit pre dep post first msg r s :
  qualifying pre →
  exitOf c dep = Some (first, msg, r) →
  syncStatusLocals c (pre ++ dep :: post) s =
  ((withStatusMsg (tallyAll c pre initLocals) msg, r),
   mkState (notReady first msg (Conditions s)) (Fetched s ++ pre ++ [dep])).
Proof.
  intros Hpre Hexit. unfold syncStatusLocals.
  unfold mbind at 1. unfold Operator.M_bind.
  rewrite (loop_app_qualifies c pre) by done.
  rewrite loop_cons, Hexit. simpl. by rewrite <- app_assoc.
Qed.

Lemma syncStatusLocals_through deployments s :
  qualifying deployments →
  syncStatusLocals c deployments s =
  let l := tallyAll c deployments initLocals in
  let '(x, s') := afterLoop (Z.of_nat (length deployments)) l
                    (mkState (Conditions s) (Fetched s ++ deployments)) in
  ((l, x), s').
Proof.
  intros Hall. unfold syncStatusLocals.
  unfold mbind at 1. unfold Operator.M_bind.
  rewrite <- (app_nil_r deployments) at 1.
  rewrite (loop_app_qualifies c deployments) by done.
  rewrite loop_nil. simpl.
  unfold mbind, Operator.M_bind.
  by destruct (afterLoop _ _ _).
Qed.

Lemma afterLoop_Fetched len l s : Fetched (afterLoop len l s).2 = Fetched s.
Proof.
  unfold afterLoop. repeat case_bool_decide; run_M; done.
Qed.

Lemma not_qualifies_exit dep :
  qualifies c dep = false → ∃ first msg r, exitOf c dep = Some (first, msg, r).
Proof.
  intros Hq. destruct (exitOf c dep) as [[[first msg] r]|] eqn:He; [eauto|].
  apply qualifies_exitOf in He. congruence.
Qed.

Lemma classifiedComplete_qualifies dep :
  classifiedComplete c dep = true → qualifies c dep = true.
Proof.
  unfold classifiedComplete. destruct (appsv1Client c dep); [|done].
  by intros [? _]%andb_true_iff.
Qed.

Lemma classifiedVersionReady_qualifies dep :
  classifiedVersionReady c dep = true → qualifies c dep = true.
Proof.
  unfold classifiedVersionReady. destruct (appsv1Client c dep); [|done].
  by intros [? _]%andb_true_iff.
Qed.

(** Among the deployments that pass the disqualification checks, a complete
    one is version-ready. *)
Lemma classifiedComplete_versionReady dep :
  classifiedComplete c dep = true → classifiedVersionReady c dep = true.
Proof.
  unfold classifiedComplete, classifiedVersionReady, qualifies.
  destruct (appsv1Client c dep) as [existing|]; [|done].
  unfold isDeploymentStatusComplete, isDeploymentStatusAvailableAndUpdated,
    isDeploymentStatusAvailable.
  rewrite !andb_true_iff, !bool_decide_eq_true.
  intros [[Hdel Hav] [[[Hup Hrep] Havr] Hgen]].
  repeat split; [done| done | done | done | congruence].
Qed.

Lemma syncStatusLocals_cases deployments s :
  (qualifying deployments ∧
   syncStatusLocals c deployments s =
     let l := tallyAll c deployments initLocals in
     let '(x, s') := afterLoop (Z.of_nat (length deployments)) l
                       (mkState (Conditions s) (Fetched s ++ deployments)) in
     ((l, x), s')) ∨
  (∃ pre dep post first msg r,
     deployments = pre ++ dep :: post ∧ qualifying pre ∧
     qualifies c dep = false ∧ exitOf c dep = Some (first, msg, r) ∧
     syncStatusLocals c deployments s =
       ((withStatusMsg (tallyAll c pre initLocals) msg, r),
        mkState (notReady first msg (Conditions s))
                (Fetched s ++ pre ++ [dep]))).
Proof.
  destruct (first_disqualified c deployments)
    as [Hall|(pre & dep & post & -> & Hpre & Hd)].
  - left. split; [done|]. by apply syncStatusLocals_through.
  - right. destruct (not_qualifies_exit dep Hd) as (first & msg & r & He).
    exists pre, dep, post, first, msg, r. repeat split; try done.
    by apply syncStatusLocals_exit.
Qed.

Lemma syncStatus_eq deployments s :
  syncStatus c deployments s =
  ((syncStatusLocals c deployments s).1.2, (syncStatusLocals c deployments s).2).
Proof.
  unfold syncStatus, mbind, Operator.M_bind.
  by destruct (syncStatusLocals c deployments s) as [[l r] s'].
Qed.

(** An iteration that returns always returns [false]. *)
Lemma exitOf_false dep first msg r :
  exitOf c dep = Some (first, msg, r) → r.1 = false.
Proof.
  unfold exitOf. destruct (appsv1Client c dep) as [existing|err].
  - repeat case_match; naive_solver.
  - destruct (IsNotFound err); naive_solver.
Qed.

Lemma afterLoop_true len l s :
  (afterLoop len l s).1.1 = true ↔
  deployment_complete l = len ∨ version_ready l = len.
Proof.
  unfold afterLoop. repeat case_bool_decide; run_M; intuition congruence.
Qed.

End SyncStatus.

Section Exits.

Variable c : serviceCAOperator.

(** What the returning iteration for [dep] wrote and returned, by case. *)
Lemma exitOf_inv dep first msg r :
  exitOf c dep = Some (first, msg, r) →
  (∃ err, appsv1Client c dep = GetErr err ∧ IsNotFound err = false ∧
          msg = "Error getting deployment " +:+ dep ∧
          first = mkCondition OperatorStatusTypeFailing ConditionTrue msg
                              (ErrorString err) ∧
          r = (false, Some err)) ∨
  (first = progressingNotReady msg ∧ r = (false, None) ∧
   ((∃ err, appsv1Client c dep = GetErr err ∧ IsNotFound err = true ∧
            msg = "Deployment " +:+ dep +:+ " does not exist") ∨
    (∃ d, appsv1Client c dep = GetOk d ∧ DeletionTimestamp d ≠ None ∧
          msg = "Deployment " +:+ dep +:+ " is being deleted") ∨
    (∃ d, appsv1Client c dep = GetOk d ∧ DeletionTimestamp d = None ∧
          isDeploymentStatusAvailable d = false ∧
          msg = "Deployment " +:+ dep +:+ " does not have available replicas"))).
Proof.
  unfold exitOf. destruct (appsv1Client c dep) as [d|err].
  - case_bool_decide as Hdel.
    + intros [= <- <- <-]. right. repeat split. right. left. eauto.
    + destruct (isDeploymentStatusAvailable d) eqn:Hav; simpl; [done|].
      intros [= <- <- <-]. right. repeat split. right. right.
      exists d. by repeat split.
  - destruct (IsNotFound err) eqn:Hnf.
    + intros [= <- <- <-]. right. repeat split. left. eauto.
    + intros [= <- <- <-]. left. eauto 10.
Qed.

Lemma Find_notReady_Available first msg conds :
  CondType first ≠ OperatorStatusTypeAvailable →
  FindOperatorCondition (notReady first msg conds) OperatorStatusTypeAvailable =
  Some (mkCondition OperatorStatusTypeAvailable ConditionFalse
                    "ManagedDeploymentsNotReady" msg).
Proof.
  intros _. unfold notReady.
  apply (Find_Set_same _ (mkCondition OperatorStatusTypeAvailable _ _ _)).
Qed.

Lemma Find_notReady_first first msg conds :
  CondType first ≠ OperatorStatusTypeAvailable →
  FindOperatorCondition (notReady first msg conds) (CondType first) = Some first.
Proof.
  intros Hne. unfold notReady.
  rewrite Find_Set_other by (simpl; congruence). apply Find_Set_same.
Qed.

(** A deployment that the call fetched and that fails one of the checks is
    the one at which the loop returned. *)
Lemma fetched_disqualified deployments s new dep :
  Fetched (syncStatus c deployments s).2 = Fetched s ++ new →
  dep ∈ new →
  qualifies c dep = false →
  ∃ pre post first msg r,
    deployments = pre ++ dep :: post ∧
    Forall (λ dep, qualifies c dep = true) pre ∧
    exitOf c dep = Some (first, msg, r) ∧
    syncStatus c deployments s =
      (r, mkState (notReady first msg (Conditions s)) (Fetched s ++ pre ++ [dep])).
Proof.
  rewrite syncStatus_eq. simpl.
  destruct (syncStatusLocals_cases c deployments s)
    as [[Hall ->]|(pre & d & post & first & msg & r & -> & Hpre & Hd & He & ->)].
  - cbv zeta.
    pose proof (afterLoop_Fetched (Z.of_nat (length deployments))
                  (tallyAll c deployments initLocals)
                  (mkState (Conditions s) (Fetched s ++ deployments))) as Hf.
    destruct (afterLoop _ _ _) as [x s']. simpl in *. rewrite Hf.
    intros <-%app_inv_head Hin Hq.
    rewrite Forall_forall in Hall. specialize (Hall _ Hin). congruence.
  - simpl. intros <-%app_inv_head Hin Hq.
    apply elem_of_app in Hin as [Hin|Hin].
    + rewrite Forall_forall in Hpre. specialize (Hpre _ Hin). congruence.
    + apply list_elem_of_singleton in Hin as ->.
      exists pre, post, first, msg, r. done.
Qed.

End Exits.

(** ** The claims about [syncStatus] *)

(** C1. [syncStatus] returns [true] exactly when every deployment of the
    list is counted as complete or every deployment is counted as
    version-ready; when all deployments exist with an available replica but
    not all of them are version-ready, it returns [false]. *)
Theorem syncStatus_reports_version_iff
    (c : serviceCAOperator) (deployments : list string) (s : State) :
  ((syncStatus c deployments s).1.1 = true ↔
     Forall (λ dep, classifiedComplete c dep = true) deployments ∨
     Forall (λ dep, classifiedVersionReady c dep = true) deployments) ∧
  (Forall (λ dep, qualifies c dep = true) deployments →
   ¬ Forall (λ dep, classifiedVersionReady c dep = true) deployments →
   (syncStatus c deployments s).1 = (false, None)).
Proof.
  rewrite syncStatus_eq. simpl.
  destruct (syncStatusLocals_cases c deployments s)
    as [[Hall ->]|(pre & dep & post & first & msg & r & -> & Hpre & Hd & He & ->)].
  - destruct (tallyAll_counters c deployments initLocals) as (Hv & Hx & Hc).
    simpl in Hv, Hx, Hc.
    pose proof (afterLoop_true (Z.of_nat (length deployments))
                  (tallyAll c deployments initLocals)
                  (mkState (Conditions s) (Fetched s ++ deployments))) as Ht.
    cbv zeta.
    destruct (afterLoop (Z.of_nat (length deployments))
                (tallyAll c deployments initLocals)
                (mkState (Conditions s) (Fetched s ++ deployments)))
      as [x s'] eqn:Ha.
    simpl. simpl in Ht. rewrite Hv, Hc, !Z.add_0_l in Ht.
    rewrite !countZ_all in Ht. split; [exact Ht|].
    intros _ Hnv.
    assert (x.1 ≠ true) as Hx1.
    { rewrite Ht. intros [Hcomp|Hvr]; [|done]. apply Hnv.
      eapply Forall_impl; [exact Hcomp|]. apply classifiedComplete_versionReady. }
    revert Ha. unfold afterLoop.
    repeat case_bool_decide; run_M; intros [= <- <-]; simpl in *; congruence.
  - simpl. pose proof (exitOf_false c dep first msg r He) as Hr.
    split.
    + rewrite Hr. split; [done|]. intros [H|H];
        apply Forall_app in H as [_ H]; inversion H as [|? ? Hdep _]; subst.
      * apply classifiedComplete_qualifies in Hdep. congruence.
      * apply classifiedVersionReady_qualifies in Hdep. congruence.
    + intros H. apply Forall_app in H as [_ H].
      inversion H as [|? ? Hdep _]; subst. congruence.
Qed.

(** C8. Tier monotonicity: the list consists of deployments counted as
    complete exactly when [deployment_complete] reaches the length of the
    list, and then [version_ready] and [existingDeploymentsAndReplicas]
    reach it as well. *)
Theorem syncStatus_tier_monotonicity
    (c : serviceCAOperator) (deployments : list string) (s : State) :
  let l := (syncStatusLocals c deployments s).1.1 in
  let len := Z.of_nat (length deployments) in
  (Forall (λ dep, classifiedComplete c dep = true) deployments ↔
     deployment_complete l = len) ∧
  (deployment_complete l = len →
     version_ready l = len ∧ existingDeploymentsAndReplicas l = len).
Proof.
  simpl.
  destruct (syncStatusLocals_cases c deployments s)
    as [[Hall ->]|(pre & dep & post & first & msg & r & -> & Hpre & Hd & He & ->)].
  - destruct (tallyAll_counters c deployments initLocals) as (Hv & Hx & Hc).
    simpl in Hv, Hx, Hc.
    cbv zeta.
    destruct (afterLoop (Z.of_nat (length deployments))
                (tallyAll c deployments initLocals)
                (mkState (Conditions s) (Fetched s ++ deployments)))
      as [x s'] eqn:Ha.
    simpl.
    rewrite Hv, Hx, Hc, !Z.add_0_l, !countZ_all.
    split; [done|]. intros Hcomp. split; [|done].
    eapply Forall_impl; [exact Hcomp|]. apply classifiedComplete_versionReady.
  - simpl.
    destruct (tallyAll_counters c pre initLocals) as (Hv & Hx & Hc).
    simpl in Hc. rewrite Hc.
    pose proof (countZ_bounds (classifiedComplete c) pre) as Hb.
    rewrite length_app. simpl length.
    split; [split|]; [| lia | lia].
    intros H. apply Forall_app in H as [_ H].
    inversion H as [|? ? Hdep _]; subst.
    apply classifiedComplete_qualifies in Hdep. congruence.
Qed.

(** C9. With no managed deployment, [syncStatus] fetches nothing, sets
    Available=True and Progressing=False with the reason
    ManagedDeploymentsCompleteAndUpdated, and returns [(true, nil)]. *)
Theorem syncStatus_empty (c : serviceCAOperator) (s : State) :
  let '(r, s') := syncStatus c [] s in
  r = (true, None) ∧
  Fetched s' = Fetched s ∧
  FindOperatorCondition (Conditions s') OperatorStatusTypeAvailable =
    Some (mkCondition OperatorStatusTypeAvailable ConditionTrue
            "ManagedDeploymentsCompleteAndUpdated" EmptyString) ∧
  FindOperatorCondition (Conditions s') OperatorStatusTypeProgressing =
    Some (mkCondition OperatorStatusTypeProgressing ConditionFalse
            "ManagedDeploymentsCompleteAndUpdated"
            "All service-ca-operator deployments updated") ∧
  Conditions s' =
    SetOperatorCondition
      (SetOperatorCondition (Conditions s)
         (mkCondition OperatorStatusTypeAvailable ConditionTrue
            "ManagedDeploymentsCompleteAndUpdated" EmptyString))
      (mkCondition OperatorStatusTypeProgressing ConditionFalse
         "ManagedDeploymentsCompleteAndUpdated"
         "All service-ca-operator deployments updated").
Proof.
  unfold syncStatus, syncStatusLocals, afterLoop. run_M.
  repeat split; [|].
  - rewrite Find_Set_other by done.
    apply (Find_Set_same _ (mkCondition OperatorStatusTypeAvailable _ _ _)).
  - apply (Find_Set_same _ (mkCondition OperatorStatusTypeProgressing _ _ _)).
Qed.

Lemma afterLoop_nil_error len l s : (afterLoop len l s).1.2 = None.
Proof. unfold afterLoop. repeat case_bool_decide; run_M; done. Qed.

(** C5. When a fetch made by [syncStatus] fails with an error other than
    NotFound, the call sets Failing=True with the error text as message,
    sets Available=False and returns [(false, err)]; and a non-nil error is
    returned in that case only. *)
Theorem syncStatus_fetch_error
    (c : serviceCAOperator) (deployments : list string) (s : State) :
  (∀ new dep err,
     Fetched (syncStatus c deployments s).2 = Fetched s ++ new →
     dep ∈ new →
     appsv1Client c dep = GetErr err →
     IsNotFound err = false →
     (syncStatus c deployments s).1 = (false, Some err) ∧
     FindOperatorCondition (Conditions (syncStatus c deployments s).2)
         OperatorStatusTypeFailing =
       Some (mkCondition OperatorStatusTypeFailing ConditionTrue
               ("Error getting deployment " +:+ dep) (ErrorString err)) ∧
     FindOperatorCondition (Conditions (syncStatus c deployments s).2)
         OperatorStatusTypeAvailable =
       Some (mkCondition OperatorStatusTypeAvailable ConditionFalse
               "ManagedDeploymentsNotReady"
               ("Error getting deployment " +:+ dep))) ∧
  (∀ err,
     (syncStatus c deployments s).1.2 = Some err →
     ∃ new dep,
       Fetched (syncStatus c deployments s).2 = Fetched s ++ new ∧
       dep ∈ new ∧
       appsv1Client c dep = GetErr err ∧
       IsNotFound err = false).
Proof.
  split.
  - intros new dep err Hf Hin Hget Hnf.
    destruct (fetched_disqualified c deployments s new dep Hf Hin)
      as (pre & post & first & msg & r & -> & Hpre & He & ->).
    { unfold qualifies. by rewrite Hget. }
    apply exitOf_inv in He
      as [(err' & Hget' & _ & -> & -> & ->)|(_ & _ & [H|[H|H]])].
    + rewrite Hget in Hget'. injection Hget' as <-. simpl.
      split; [done|]. split.
      * apply (Find_notReady_first
                 (mkCondition OperatorStatusTypeFailing _ _ _)). done.
      * by apply Find_notReady_Available.
    + destruct H as (e & Hget' & Hnf' & _). congruence.
    + destruct H as (d & Hget' & _). congruence.
    + destruct H as (d & Hget' & _). congruence.
  - intros err. rewrite syncStatus_eq. simpl.
    destruct (syncStatusLocals_cases c deployments s)
      as [[Hall ->]|(pre & dep & post & first & msg & r & -> & Hpre & Hd & He & ->)].
    + cbv zeta.
      pose proof (afterLoop_nil_error (Z.of_nat (length deployments))
                    (tallyAll c deployments initLocals)
                    (mkState (Conditions s) (Fetched s ++ deployments))) as Hn.
      destruct (afterLoop _ _ _) as [x s']. simpl in *. congruence.
    + simpl. intros Hr. exists (pre ++ [dep]), dep.
      split; [done|]. split; [set_solver|].
      apply exitOf_inv in He
        as [(err' & Hget' & Hnf & _ & _ & ->)|(_ & -> & _)]; simpl in Hr.
      * by injection Hr as <-.
      * done.
Qed.

(** C6. When a deployment fetched by [syncStatus] is NotFound, or carries a
    deletion timestamp, or (carrying none) has no available replica, the
    call sets Progressing=True with the message of that check, sets
    Available=False with the same message, and returns [(false, nil)]. The
    order of the checks shows in the second and third case. *)
Theorem syncStatus_not_ready
    (c : serviceCAOperator) (deployments : list string) (s : State)
    (new : list string) (dep what : string) :
  Fetched (syncStatus c deployments s).2 = Fetched s ++ new →
  dep ∈ new →
  ((∃ err, appsv1Client c dep = GetErr err ∧ IsNotFound err = true) ∧
     what = " does not exist") ∨
  ((∃ d, appsv1Client c dep = GetOk d ∧ DeletionTimestamp d ≠ None) ∧
     what = " is being deleted") ∨
  ((∃ d, appsv1Client c dep = GetOk d ∧ DeletionTimestamp d = None ∧
         (AvailableReplicas (DStatus d) ≤ 0)%Z) ∧
     what = " does not have available replicas") →
  (syncStatus c deployments s).1 = (false, None) ∧
  FindOperatorCondition (Conditions (syncStatus c deployments s).2)
      OperatorStatusTypeProgressing =
    Some (mkCondition OperatorStatusTypeProgressing ConditionTrue
            "ManagedDeploymentsNotReady" ("Deployment " +:+ dep +:+ what)) ∧
  FindOperatorCondition (Conditions (syncStatus c deployments s).2)
      OperatorStatusTypeAvailable =
    Some (mkCondition OperatorStatusTypeAvailable ConditionFalse
            "ManagedDeploymentsNotReady" ("Deployment " +:+ dep +:+ what)).
Proof.
  intros Hf Hin Hcase.
  assert (exitOf c dep =
          Some (progressingNotReady ("Deployment " +:+ dep +:+ what),
                "Deployment " +:+ dep +:+ what, (false, None))) as He.
  { unfold exitOf.
    destruct Hcase as [[(err & -> & ->) ->]|[[(d & -> & Hdel) ->]
                      |[(d & -> & Hdel & Hav) ->]]].
    - done.
    - by rewrite bool_decide_eq_true_2.
    - rewrite bool_decide_eq_false_2 by (intros H; by apply H).
      unfold isDeploymentStatusAvailable.
      rewrite bool_decide_eq_false_2 by lia. done. }
  destruct (fetched_disqualified c deployments s new dep Hf Hin)
    as (pre & post & first & msg & r & -> & Hpre & He' & ->).
  { destruct (qualifies c dep) eqn:Hq; [|done].
    apply qualifies_exitOf in Hq. congruence. }
  rewrite He in He'. injection He' as <- <- <-. simpl.
  split; [done|]. split.
  - apply (Find_notReady_first (progressingNotReady _)). done.
  - by apply Find_notReady_Available.
Qed.

(** C7. Short circuit: when [dep] is the first deployment of the list that
    fails a check, two runs that agree on the deployments up to [dep] give
    the same returned pair, the same conditions and the same fetches,
    whatever follows [dep] in either list and whatever the states of the
    deployments that follow. *)
Theorem syncStatus_short_circuit
    (c1 c2 : serviceCAOperator) (pre : list string) (dep : string)
    (post1 post2 : list string) (s : State) :
  Forall (λ x, qualifies c1 x = true) pre →
  qualifies c1 dep = false →
  (∀ x, x ∈ pre ++ [dep] → appsv1Client c2 x = appsv1Client c1 x) →
  syncStatus c1 (pre ++ dep :: post1) s = syncStatus c2 (pre ++ dep :: post2) s ∧
  Fetched (syncStatus c1 (pre ++ dep :: post1) s).2 = Fetched s ++ pre ++ [dep].
Proof.
  intros Hpre Hd Hagree.
  assert (∀ x, x ∈ pre ++ [dep] → qualifies c2 x = qualifies c1 x) as Hq.
  { intros x Hx. unfold qualifies. by rewrite Hagree. }
  assert (exitOf c2 dep = exitOf c1 dep) as He.
  { unfold exitOf. rewrite Hagree by set_solver. done. }
  assert (Forall (λ x, qualifies c2 x = true) pre) as Hpre2.
  { rewrite Forall_forall in Hpre |- *. intros x Hx.
    rewrite Hq by set_solver. by apply Hpre. }
  destruct (not_qualifies_exit c1 dep Hd) as (first & msg & r & He1).
  rewrite !syncStatus_eq.
  rewrite (syncStatusLocals_exit c1 pre dep post1 first msg r) by done.
  rewrite (syncStatusLocals_exit c2 pre dep post2 first msg r) by congruence.
  done.
Qed.

Lemma afterLoop_Conditions len l s :
  Conditions (afterLoop len l s).2 = Conditions s ∨
  ∃ a p, CondType a = OperatorStatusTypeAvailable ∧
         CondType p = OperatorStatusTypeProgressing ∧
         Conditions (afterLoop len l s).2 =
           SetOperatorCondition (SetOperatorCondition (Conditions s) a) p.
Proof.
  unfold afterLoop. repeat case_bool_decide; run_M;
    (by left) || (right; eexists _, _; repeat split; reflexivity).
Qed.

(** C10. [syncStatus] leaves every condition other than Available,
    Progressing and Failing as it was. The Failing condition is either left
    as it was, or set to True while a fetch error other than NotFound is
    returned; so a Failing condition that is False afterwards was so
    before, and one that was True before is True afterwards. *)
Theorem syncStatus_frame
    (c : serviceCAOperator) (deployments : list string) (s : State) :
  let r := (syncStatus c deployments s).1 in
  let conds' := Conditions (syncStatus c deployments s).2 in
  filter (λ x, managedType (CondType x) = false) conds' =
    filter (λ x, managedType (CondType x) = false) (Conditions s) ∧
  (FindOperatorCondition conds' OperatorStatusTypeFailing =
     FindOperatorCondition (Conditions s) OperatorStatusTypeFailing ∨
   ∃ dep err,
     appsv1Client c dep = GetErr err ∧ IsNotFound err = false ∧
     r = (false, Some err) ∧
     FindOperatorCondition conds' OperatorStatusTypeFailing =
       Some (mkCondition OperatorStatusTypeFailing ConditionTrue
               ("Error getting deployment " +:+ dep) (ErrorString err))) ∧
  (∀ f, FindOperatorCondition conds' OperatorStatusTypeFailing = Some f →
        Status f = ConditionFalse →
        FindOperatorCondition (Conditions s) OperatorStatusTypeFailing = Some f) ∧
  (∀ f, FindOperatorCondition (Conditions s) OperatorStatusTypeFailing = Some f →
        Status f = ConditionTrue →
        ∃ f', FindOperatorCondition conds' OperatorStatusTypeFailing = Some f' ∧
              Status f' = ConditionTrue).
Proof.
  cbv zeta.
  assert (filter (λ x, managedType (CondType x) = false)
            (Conditions (syncStatus c deployments s).2) =
          filter (λ x, managedType (CondType x) = false) (Conditions s) ∧
          (FindOperatorCondition (Conditions (syncStatus c deployments s).2)
               OperatorStatusTypeFailing =
             FindOperatorCondition (Conditions s) OperatorStatusTypeFailing ∨
           ∃ dep err,
             appsv1Client c dep = GetErr err ∧ IsNotFound err = false ∧
             (syncStatus c deployments s).1 = (false, Some err) ∧
             FindOperatorCondition (Conditions (syncStatus c deployments s).2)
                 OperatorStatusTypeFailing =
               Some (mkCondition OperatorStatusTypeFailing ConditionTrue
                       ("Error getting deployment " +:+ dep) (ErrorString err))))
    as [Hframe Hfailing].
  { rewrite syncStatus_eq. simpl.
    destruct (syncStatusLocals_cases c deployments s)
      as [[Hall ->]|(pre & dep & post & first & msg & r & -> & Hpre & Hd & He & ->)].
    - cbv zeta.
      pose proof (afterLoop_Conditions (Z.of_nat (length deployments))
                    (tallyAll c deployments initLocals)
                    (mkState (Conditions s) (Fetched s ++ deployments))) as Hc.
      destruct (afterLoop _ _ _) as [x s']. simpl in *.
      destruct Hc as [->|(a & p & Ha & Hp & ->)]; [by split; [|left]|].
      split.
      + rewrite !filter_Set_managed; [done| |]; rewrite ?Ha, ?Hp; done.
      + left. rewrite !Find_Set_other; [done| |]; rewrite ?Ha, ?Hp; done.
    - simpl. unfold notReady.
      apply exitOf_inv in He
        as [(err & Hget & Hnf & -> & -> & ->)|(-> & -> & _)].
      + split.
        * rewrite !filter_Set_managed; done.
        * right. exists dep, err. repeat split; try done.
          rewrite Find_Set_other by done.
          apply (Find_Set_same _ (mkCondition OperatorStatusTypeFailing _ _ _)).
      + split.
        * rewrite !filter_Set_managed; done.
        * left. rewrite !Find_Set_other; done. }
  split; [exact Hframe|]. split; [exact Hfailing|]. split.
  - intros f Hf Hst.
    destruct Hfailing as [<-|(dep & err & _ & _ & _ & Hf')]; [done|].
    rewrite Hf in Hf'. injection Hf' as ->. done.
  - intros f Hf Hst.
    destruct Hfailing as [->|(dep & err & _ & _ & _ & ->)]; eauto.
Qed.

(** ** Runs of [syncStatus] on sample clusters *)

Import Samples.

(** A single deployment that does not exist. *)
Example syncStatus_missing :
  syncStatus cluster ["nowhere"] before =
  ((false, None),
   Operator.mkState
     [ mkCondition "Upgradeable" ConditionTrue "AsExpected" EmptyString;
       mkCondition "Failing" ConditionTrue "OperatorSyncLoopError" "boom";
       mkCondition "Available" ConditionFalse "ManagedDeploymentsNotReady"
                   "Deployment nowhere does not exist";
       mkCondition "Progressing" ConditionTrue "ManagedDeploymentsNotReady"
                   "Deployment nowhere does not exist" ]
     ["nowhere"]).
Proof. vm_compute. reflexivity. Qed.

(** A single deployment with two of two replicas updated and available. *)
Example syncStatus_rolled_out :
  syncStatus cluster ["signer"] before =
  ((true, None),
   Operator.mkState
     [ mkCondition "Upgradeable" ConditionTrue "AsExpected" EmptyString;
       mkCondition "Failing" ConditionTrue "OperatorSyncLoopError" "boom";
       mkCondition "Available" ConditionTrue
                   "ManagedDeploymentsCompleteAndUpdated" EmptyString;
       mkCondition "Progressing" ConditionFalse
                   "ManagedDeploymentsCompleteAndUpdated"
                   "All service-ca-operator deployments updated" ]
     ["signer"]).
Proof. vm_compute. reflexivity. Qed.

(** One complete deployment and one with a replica of the previous revision
    left: available, progressing, version not reported. *)
Example syncStatus_stale_replica :
  syncStatusLocals cluster ["signer"; "apiservice-injector"] before =
  ((mkLocals 1 2 1 "Deployment apiservice-injector is updating", (false, None)),
   Operator.mkState
     [ mkCondition "Upgradeable" ConditionTrue "AsExpected" EmptyString;
       mkCondition "Failing" ConditionTrue "OperatorSyncLoopError" "boom";
       mkCondition "Available" ConditionTrue "ManagedDeploymentsAvailable"
                   EmptyString;
       mkCondition "Progressing" ConditionTrue "ManagedDeploymentsAvailable"
                   "Deployment apiservice-injector is updating" ]
     ["signer"; "apiservice-injector"]).
Proof. vm_compute. reflexivity. Qed.

(** All replicas current but fewer than desired: version reported while the
    rollout continues. *)
Example syncStatus_scaling_up :
  syncStatusLocals cluster ["signer"; "configmap-injector"] before =
  ((mkLocals 2 2 1 "Deployment configmap-injector is creating replicas.",
    (true, None)),
   Operator.mkState
     [ mkCondition "Upgradeable" ConditionTrue "AsExpected" EmptyString;
       mkCondition "Failing" ConditionTrue "OperatorSyncLoopError" "boom";
       mkCondition "Available" ConditionTrue
                   "ManagedDeploymentsAvailableAndUpdated" EmptyString;
       mkCondition "Progressing" ConditionTrue
                   "ManagedDeploymentsAvailableAndUpdated"
                   "Deployment configmap-injector is creating replicas." ]
     ["signer"; "configmap-injector"]).
Proof. vm_compute. reflexivity. Qed.

(** The deletion timestamp is checked before the available replicas, and
    the deployments after the first one that fails a check are not fetched. *)
Example syncStatus_checks_in_order :
  syncStatus cluster ["signer"; "draining"; "unreachable"] before =
  ((false, None),
   Operator.mkState
     [ mkCondition "Upgradeable" ConditionTrue "AsExpected" EmptyString;
       mkCondition "Failing" ConditionTrue "OperatorSyncLoopError" "boom";
       mkCondition "Available" ConditionFalse "ManagedDeploymentsNotReady"
                   "Deployment draining is being deleted";
       mkCondition "Progressing" ConditionTrue "ManagedDeploymentsNotReady"
                   "Deployment draining is being deleted" ]
     ["signer"; "draining"]).
Proof. vm_compute. reflexivity. Qed.

Lemma syncStatus_reports_version_iff_witness :
  (syncStatus cluster ["signer"; "apiservice-injector"] before).1 = (false, None).
Proof.
  apply (proj2 (syncStatus_reports_version_iff
                  cluster ["signer"; "apiservice-injector"] before)).
  - repeat constructor.
  - intros H. apply Forall_cons in H as [_ H]. apply Forall_cons in H as [H _].
    vm_compute in H. discriminate.
Defined.

Lemma syncStatus_tier_monotonicity_witness :
  version_ready (syncStatusLocals cluster ["signer"] before).1.1 = 1%Z ∧
  existingDeploymentsAndReplicas
    (syncStatusLocals cluster ["signer"] before).1.1 = 1%Z.
Proof.
  apply (proj2 (syncStatus_tier_monotonicity cluster ["signer"] before)).
  vm_compute. reflexivity.
Defined.

Lemma syncStatus_fetch_error_witness :
  (syncStatus cluster ["signer"; "unreachable"; "nowhere"] before).1 =
    (false, Some timeout) ∧
  FindOperatorCondition
    (Conditions (syncStatus cluster ["signer"; "unreachable"; "nowhere"] before).2)
    OperatorStatusTypeFailing =
    Some (mkCondition OperatorStatusTypeFailing ConditionTrue
            ("Error getting deployment " +:+ "unreachable")
            (ErrorString timeout)) ∧
  FindOperatorCondition
    (Conditions (syncStatus cluster ["signer"; "unreachable"; "nowhere"] before).2)
    OperatorStatusTypeAvailable =
    Some (mkCondition OperatorStatusTypeAvailable ConditionFalse
            "ManagedDeploymentsNotReady"
            ("Error getting deployment " +:+ "unreachable")).
Proof.
  apply (proj1 (syncStatus_fetch_error
                  cluster ["signer"; "unreachable"; "nowhere"] before)
               ["signer"; "unreachable"] "unreachable" timeout).
  - vm_compute. reflexivity.
  - apply list_elem_of_In. simpl. auto.
  - reflexivity.
  - reflexivity.
Defined.

Lemma syncStatus_not_ready_witness :
  (syncStatus cluster ["signer"; "starting"; "unreachable"] before).1 =
    (false, None) ∧
  FindOperatorCondition
    (Conditions (syncStatus cluster ["signer"; "starting"; "unreachable"] before).2)
    OperatorStatusTypeProgressing =
    Some (mkCondition OperatorStatusTypeProgressing ConditionTrue
            "ManagedDeploymentsNotReady"
            ("Deployment " +:+ "starting" +:+ " does not have available replicas")) ∧
  FindOperatorCondition
    (Conditions (syncStatus cluster ["signer"; "starting"; "unreachable"] before).2)
    OperatorStatusTypeAvailable =
    Some (mkCondition OperatorStatusTypeAvailable ConditionFalse
            "ManagedDeploymentsNotReady"
            ("Deployment " +:+ "starting" +:+ " does not have available replicas")).
Proof.
  apply (syncStatus_not_ready cluster ["signer"; "starting"; "unreachable"]
           before ["signer"; "starting"] "starting"
           " does not have available replicas").
  - vm_compute. reflexivity.
  - apply list_elem_of_In. simpl. auto.
  - right. right. split; [|reflexivity].
    exists starting. split; [reflexivity|]. split; [reflexivity|].
    simpl. lia.
Defined.

Lemma syncStatus_short_circuit_witness :
  syncStatus cluster
    (["signer"] ++ "terminating" :: ["starting"; "configmap-injector"]) before =
  syncStatus clusterLater
    (["signer"] ++ "terminating" :: ["configmap-injector"]) before ∧
  Fetched (syncStatus cluster
    (["signer"] ++ "terminating" :: ["starting"; "configmap-injector"]) before).2 =
  Fetched before ++ ["signer"] ++ ["terminating"].
Proof.
  apply (syncStatus_short_circuit cluster clusterLater ["signer"] "terminating"
           ["starting"; "configmap-injector"] ["configmap-injector"] before).
  - repeat constructor.
  - reflexivity.
  - intros x Hx. apply list_elem_of_In in Hx. simpl in Hx.
    destruct Hx as [<-|[<-|[]]]; reflexivity.
Defined.

Lemma syncStatus_frame_witness :
  ∃ f', FindOperatorCondition
          (Conditions (syncStatus cluster ["signer"; "starting"] before).2)
          OperatorStatusTypeFailing = Some f' ∧
        Status f' = ConditionTrue.
Proof.
  apply (proj2 (proj2 (proj2
           (syncStatus_frame cluster ["signer"; "starting"] before)))
           (mkCondition "Failing" ConditionTrue "OperatorSyncLoopError" "boom")).
  - reflexivity.
  - reflexivity.
Defined.

(* ===================================================================== *)
(** * Properties of the injector's [Sync] *)
(* ===================================================================== *)

Import Injector InjectorSpec.

(** A data mapping passes the skip test of
    [ensureConfigMapCABundleInjection] exactly when it is the single entry
    for the injection key with the wanted value. *)
Lemma skip_test_singleton (key value : string) (data : gmap string string) :
  match data !! key with
  | Some v => bool_decide (v = value) && bool_decide (size data = 1%nat)
  | None => false
  end = bool_decide (data = {[ key := value ]}).
Proof.
  destruct (data !! key) as [v|] eqn:Hk.
  - destruct (decide (v = value)) as [->|Hv].
    + rewrite (bool_decide_eq_true_2 (value = value)) by done. simpl.
      apply bool_decide_ext. split.
      * intros Hsz.
        rewrite <- (insert_delete_id data key value Hk).
        assert (delete key data = ∅) as ->.
        { apply map_size_empty_inv.
          rewrite (map_size_delete_Some key data) by eauto. by rewrite Hsz. }
        done.
      * intros ->. apply map_size_singleton.
    + rewrite (bool_decide_eq_false_2 (v = value)) by done. simpl.
      symmetry. apply bool_decide_eq_false_2. intros ->.
      rewrite lookup_singleton_eq in Hk. congruence.
  - symmetry. apply bool_decide_eq_false_2. intros ->.
    rewrite lookup_singleton_eq in Hk. congruence.
Qed.

Section Sync.

Variable HasInjectCABundleAnnotation : ConfigMap → bool.
Variable InjectionDataKey : string.
Variable ic : configMapCABundleInjectionController.

Local Abbreviation wanted := ({[ InjectionDataKey := ca ic ]} : gmap string string).
Local Abbreviation submitted := (injected InjectionDataKey (ca ic)).
Local Abbreviation sync := (Sync HasInjectCABundleAnnotation InjectionDataKey ic).

Lemma ensure_eq current cm s :
  Heap s !! current = Some cm →
  ensureConfigMapCABundleInjection InjectionDataKey ic current s =
  if bool_decide (Data cm = wanted)
  then Some (None, Injector.mkState (Heap s ++ [cm]) (Updates s))
  else Some (configMapClient ic (submitted cm),
             Injector.mkState (Heap s ++ [submitted cm])
                              (Updates s ++ [submitted cm])).
Proof.
  intros Hcur.
  unfold ensureConfigMapCABundleInjection, DeepCopy, deref, setData, Update.
  unfold mbind at 1 2. unfold Injector.M_bind. simpl. rewrite Hcur. simpl.
  rewrite (list_lookup_middle (Heap s) [] cm (length (Heap s)) eq_refl). simpl.
  rewrite skip_test_singleton.
  case_bool_decide as Hd; [done|].
  unfold mbind, Injector.M_bind. simpl.
  rewrite (list_lookup_middle (Heap s) [] cm (length (Heap s)) eq_refl). simpl.
  rewrite insert_app_r_alt by lia. rewrite Nat.sub_diag. simpl.
  rewrite (list_lookup_middle (Heap s) [] _ (length (Heap s)) eq_refl). simpl.
  done.
Qed.

Lemma Sync_eq obj cm s :
  Heap s !! obj = Some cm →
  sync obj s =
  if negb (HasInjectCABundleAnnotation cm) then Some (None, s)
  else if bool_decide (Data cm = wanted)
  then Some (None, Injector.mkState (Heap s ++ [cm]) (Updates s))
  else Some (configMapClient ic (submitted cm),
             Injector.mkState (Heap s ++ [submitted cm])
                              (Updates s ++ [submitted cm])).
Proof.
  intros Hobj. unfold Sync, deref.
  unfold mbind at 1. unfold Injector.M_bind. simpl. rewrite Hobj. simpl.
  destruct (HasInjectCABundleAnnotation cm); simpl; [|done].
  by apply ensure_eq.
Qed.

(** A [Sync] on an object whose data mapping is the wanted single entry
    issues no [Update] and returns [nil]. *)
Lemma Sync_up_to_date obj cm s :
  Heap s !! obj = Some cm →
  Data cm = wanted →
  ∃ s', sync obj s = Some (None, s') ∧ Updates s' = Updates s.
Proof.
  intros Hobj Hd. rewrite (Sync_eq obj cm s Hobj).
  rewrite (bool_decide_eq_true_2 _ Hd).
  destruct (HasInjectCABundleAnnotation cm); simpl; eauto.
Qed.

Lemma updatesIssued_app {A : Type} (m : M A) s a s' new :
  m s = Some (a, s') → Updates s' = Updates s ++ new →
  updatesIssued m s = Some (length new).
Proof.
  intros Hm Hu. unfold updatesIssued. rewrite Hm, Hu, length_app.
  f_equal. lia.
Qed.

(** [Sync] either issues no [Update] and returns [nil], or it is handed an
    annotated object that is not up to date and submits the injected copy. *)
Lemma Sync_cases obj cm s :
  Heap s !! obj = Some cm →
  (∃ s', sync obj s = Some (None, s') ∧ Updates s' = Updates s) ∨
  (HasInjectCABundleAnnotation cm = true ∧ Data cm ≠ wanted ∧
   sync obj s =
     Some (configMapClient ic (submitted cm),
           Injector.mkState (Heap s ++ [submitted cm])
                            (Updates s ++ [submitted cm]))).
Proof.
  intros Hobj. rewrite (Sync_eq obj cm s Hobj).
  destruct (HasInjectCABundleAnnotation cm); simpl; [|eauto].
  case_bool_decide as Hd; eauto.
Qed.

(** ** The claims about [Sync] *)

(** C4. On a ConfigMap without the trigger annotation, [Sync] returns [nil]
    and leaves the state as it was: it issues no [Update], whatever the
    data mapping holds. *)
Theorem Sync_without_annotation (obj : nat) (cm : ConfigMap) (s : Injector.State) :
  Heap s !! obj = Some cm →
  HasInjectCABundleAnnotation cm = false →
  sync obj s = Some (None, s) ∧
  updatesIssued (sync obj) s = Some 0%nat.
Proof.
  intros Hobj Hann.
  assert (sync obj s = Some (None, s)) as Hs.
  { rewrite (Sync_eq obj cm s Hobj), Hann. done. }
  split; [done|].
  apply (updatesIssued_app _ s None s []); [done|]. by rewrite app_nil_r.
Qed.

(** C3. Every object that [Sync] submits through [Update] is the copy of an
    annotated ConfigMap whose data mapping has exactly one entry, the
    injection key mapped to the current CA value; no other key is left. *)
Theorem Sync_update_single_entry (obj : nat) (cm : ConfigMap) (s : Injector.State) :
  Heap s !! obj = Some cm →
  ∃ r s' new,
    sync obj s = Some (r, s') ∧
    Updates s' = Updates s ++ new ∧
    ∀ sub, sub ∈ new →
      HasInjectCABundleAnnotation cm = true ∧
      sub = submitted cm ∧
      Data sub = wanted ∧
      size (Data sub) = 1%nat ∧
      Data sub !! InjectionDataKey = Some (ca ic) ∧
      ∀ k, k ≠ InjectionDataKey → Data sub !! k = None.
Proof.
  intros Hobj.
  destruct (Sync_cases obj cm s Hobj) as [(s' & Hs & Hu)|(Hann & Hd & Hs)].
  - exists None, s', []. split; [done|]. split; [by rewrite app_nil_r|].
    intros sub Hsub. by apply elem_of_nil in Hsub.
  - eexists _, _, [submitted cm]. split; [exact Hs|]. split; [done|].
    intros sub ->%list_elem_of_singleton. simpl.
    repeat split; [done|..].
    + apply map_size_singleton.
    + apply lookup_singleton_eq.
    + intros k Hk. by apply lookup_singleton_ne.
Qed.

(** C2, as amended. A [Sync] on a target that is already up to date issues
    no [Update]. On an annotated target that is not, [Sync] issues exactly
    one [Update]; a following [Sync] on the submitted copy issues none, so
    the two calls issue one; a following [Sync] on the unchanged target
    issues the same [Update] again, so those two calls issue two. Whatever
    [Sync] submitted, a [Sync] on it is a no-op. *)
Theorem Sync_idempotent_on_submitted (obj : nat) (cm : ConfigMap) (s : Injector.State) :
  Heap s !! obj = Some cm →
  (Data cm = wanted → updatesIssued (sync obj) s = Some 0%nat) ∧
  (HasInjectCABundleAnnotation cm = true → Data cm ≠ wanted →
     updatesIssued (sync obj) s = Some 1%nat ∧
     updatesIssued (SyncThenSync HasInjectCABundleAnnotation InjectionDataKey
                      ic obj (length (Heap s))) s = Some 1%nat ∧
     updatesIssued (SyncTwice HasInjectCABundleAnnotation InjectionDataKey
                      ic obj) s = Some 2%nat) ∧
  (∀ r s' new sub,
     sync obj s = Some (r, s') → Updates s' = Updates s ++ new → sub ∈ new →
     ∀ t q, Heap t !! q = Some sub →
       ∃ t', sync q t = Some (None, t') ∧ Updates t' = Updates t).
Proof.
  intros Hobj. split; [|split].
  - intros Hd. destruct (Sync_up_to_date obj cm s Hobj Hd) as (s' & Hs & Hu).
    apply (updatesIssued_app _ s None s' []); [done|]. by rewrite app_nil_r.
  - intros Hann Hd.
    assert (sync obj s =
            Some (configMapClient ic (submitted cm),
                  Injector.mkState (Heap s ++ [submitted cm])
                                   (Updates s ++ [submitted cm]))) as Hs.
    { rewrite (Sync_eq obj cm s Hobj), Hann. simpl.
      by rewrite (bool_decide_eq_false_2 _ Hd). }
    split; [|split].
    + by apply (updatesIssued_app _ s _ _ [submitted cm] Hs).
    + destruct (Sync_up_to_date (length (Heap s)) (submitted cm)
                  (Injector.mkState (Heap s ++ [submitted cm])
                                    (Updates s ++ [submitted cm])))
        as (t' & Ht & Hu); [by apply list_lookup_middle | done |].
      apply (updatesIssued_app _ s None t' [submitted cm]).
      * unfold SyncThenSync, mbind, Injector.M_bind. by rewrite Hs.
      * by rewrite Hu.
    + assert (Heap (Injector.mkState (Heap s ++ [submitted cm])
                                     (Updates s ++ [submitted cm])) !! obj
              = Some cm) as Hobj'.
      { simpl. by apply lookup_app_l_Some. }
      apply (updatesIssued_app _ s (configMapClient ic (submitted cm))
               (Injector.mkState ((Heap s ++ [submitted cm]) ++ [submitted cm])
                  ((Updates s ++ [submitted cm]) ++ [submitted cm]))
               [submitted cm; submitted cm]).
      * unfold SyncTwice, mbind, Injector.M_bind. rewrite Hs.
        rewrite (Sync_eq obj cm _ Hobj'), Hann. simpl.
        by rewrite (bool_decide_eq_false_2 _ Hd).
      * simpl. by rewrite <- app_assoc.
  - intros r s' new sub Hs Hu Hsub t q Hq.
    apply (Sync_up_to_date q sub t Hq).
    destruct (Sync_cases obj cm s Hobj) as [(s0 & Hs0 & Hu0)|(_ & _ & Hs0)];
      rewrite Hs in Hs0; injection Hs0 as -> ->.
    + rewrite Hu0 in Hu. rewrite <- (app_nil_r (Updates s)) in Hu at 1.
      apply app_inv_head in Hu as <-. by apply elem_of_nil in Hsub.
    + simpl in Hu. apply app_inv_head in Hu as <-.
      by apply list_elem_of_singleton in Hsub as ->.
Qed.

End Sync.

(** ** Runs of [Sync] on the sample cache *)

(** The annotated ConfigMap is not up to date: its copy, with the single
    entry for the injection key, is submitted; the cached object stays as it
    was. *)
Example Sync_annotated :
  Sync hasInjectAnnotation dataKey injector 0 cache =
  Some (None,
        Injector.mkState
          [annotated; plain; injected dataKey (ca injector) annotated]
          [injected dataKey (ca injector) annotated]).
Proof. vm_compute. reflexivity. Qed.

(** A [Sync] on the submitted copy, at index 2, is a no-op. *)
Example Sync_then_Sync_on_submitted :
  (λ r, Updates r.2) <$>
    SyncThenSync hasInjectAnnotation dataKey injector 0 2 cache =
  Some [injected dataKey (ca injector) annotated].
Proof. vm_compute. reflexivity. Qed.

(** Two calls of [Sync] in a row on the same annotated ConfigMap, which is
    not up to date, issue two [Update] calls, not one: the second call is
    not a no-op. *)
Lemma SyncTwice_same_input_two_updates :
  updatesIssued (SyncTwice hasInjectAnnotation dataKey injector 0) cache =
    Some 2%nat ∧
  updatesIssued (SyncTwice hasInjectAnnotation dataKey injector 0) cache ≠
    Some 1%nat ∧
  (λ r, Updates r.2) <$> SyncTwice hasInjectAnnotation dataKey injector 0 cache =
    Some [injected dataKey (ca injector) annotated;
          injected dataKey (ca injector) annotated].
Proof.
  split; [|split].
  - vm_compute. reflexivity.
  - vm_compute. discriminate.
  - vm_compute. reflexivity.
Qed.

Lemma Sync_idempotent_on_submitted_witness :
  updatesIssued (Sync hasInjectAnnotation dataKey injector 0) cache = Some 1%nat ∧
  updatesIssued (SyncThenSync hasInjectAnnotation dataKey injector 0
                   (length (Heap cache))) cache = Some 1%nat ∧
  updatesIssued (SyncTwice hasInjectAnnotation dataKey injector 0) cache =
    Some 2%nat.
Proof.
  apply (proj1 (proj2 (Sync_idempotent_on_submitted
                         hasInjectAnnotation dataKey injector 0 annotated cache
                         eq_refl))).
  - vm_compute. reflexivity.
  - intros H. apply (f_equal (λ m : gmap string string, m !! "other")) in H.
    vm_compute in H. discriminate.
Defined.

Lemma Sync_update_single_entry_witness :
  ∃ r s' new,
    Sync hasInjectAnnotation dataKey injector 0 cache = Some (r, s') ∧
    Updates s' = Updates cache ++ new ∧
    ∀ sub, sub ∈ new →
      hasInjectAnnotation annotated = true ∧
      sub = injected dataKey (ca injector) annotated ∧
      Data sub = {[ dataKey := ca injector ]} ∧
      size (Data sub) = 1%nat ∧
      Data sub !! dataKey = Some (ca injector) ∧
      ∀ k, k ≠ dataKey → Data sub !! k = None.
Proof.
  apply (Sync_update_single_entry hasInjectAnnotation dataKey injector
           0 annotated cache).
  reflexivity.
Defined.

Lemma Sync_without_annotation_witness :
  Sync hasInjectAnnotation dataKey injector 1 cache = Some (None, cache) ∧
  updatesIssued (Sync hasInjectAnnotation dataKey injector 1) cache = Some 0%nat.
Proof.
  apply (Sync_without_annotation hasInjectAnnotation dataKey injector
           1 plain cache).
  - reflexivity.
  - vm_compute. reflexivity.
Defined.

(* ===================================================================== *)
(** * Further properties of [syncStatus] and the condition setters *)
(* ===================================================================== *)

Section ConditionWrites.

Implicit Types (conds : list OperatorCondition) (c : OperatorCondition).

(** Writing a condition that is already recorded changes nothing. *)
Lemma Set_recorded conds c :
  FindOperatorCondition conds (CondType c) = Some c →
  SetOperatorCondition conds c = conds.
Proof.
  induction conds as [|c0 rest IH]; simpl; [done|].
  destruct (decide (CondType c0 = CondType c)) as [E|NE].
  - intros [= ->]. by destruct c.
  - intros H. by rewrite IH.
Qed.

(** Of two writes to the same name only the second one shows. *)
Lemma Set_overwrite conds c1 c2 :
  CondType c1 = CondType c2 →
  SetOperatorCondition (SetOperatorCondition conds c1) c2 =
  SetOperatorCondition conds c2.
Proof.
  intros E. induction conds as [|c0 rest IH]; simpl.
  - rewrite decide_True by done. simpl. by destruct c2; simpl in *; subst.
  - destruct (decide (CondType c0 = CondType c1)) as [E1|NE1]; simpl.
    + rewrite !decide_True by congruence. done.
    + rewrite !decide_False by congruence. by rewrite IH.
Qed.

Lemma Set_lookup_other conds c i c0 :
  conds !! i = Some c0 → CondType c0 ≠ CondType c →
  SetOperatorCondition conds c !! i = Some c0.
Proof.
  revert i. induction conds as [|c1 rest IH]; intros i; [done|].
  simpl. destruct (decide (CondType c1 = CondType c)) as [E|NE].
  - destruct i as [|i]; simpl; [|done]. intros [= ->]. done.
  - destruct i as [|i]; simpl; [done|]. apply IH.
Qed.

(** The names of a condition set after a write: the same names in the same
    order, followed by the written name when it was not there. *)
Lemma Set_names conds c :
  CondType <$> SetOperatorCondition conds c =
  if decide (CondType c ∈ CondType <$> conds)
  then CondType <$> conds
  else (CondType <$> conds) ++ [CondType c].
Proof.
  induction conds as [|c0 rest IH].
  - destruct (decide (CondType c ∈ CondType <$> [])) as [Hin|Hin]; [|done].
    by apply elem_of_nil in Hin.
  - cbn [SetOperatorCondition].
    destruct (decide (CondType c ∈ CondType <$> c0 :: rest)) as [Hin'|Hin'];
      destruct (decide (CondType c0 = CondType c)) as [E|NE];
      rewrite !fmap_cons; rewrite ?fmap_cons in Hin'.
    + done.
    + rewrite IH. apply elem_of_cons in Hin' as [?|Hin]; [congruence|].
      by rewrite decide_True.
    + destruct Hin'. rewrite E. apply list_elem_of_here.
    + rewrite IH. rewrite decide_False; [done|].
      intros Hin. apply Hin'. by apply list_elem_of_further.
Qed.

Lemma Set_names_app conds c :
  ∃ added, CondType <$> SetOperatorCondition conds c = (CondType <$> conds) ++ added ∧
           (length added ≤ 1)%nat ∧
           (∀ t, t ∈ added → t = CondType c) ∧
           (NoDup (CondType <$> conds) →
            NoDup (CondType <$> SetOperatorCondition conds c)).
Proof.
  rewrite Set_names. destruct (decide (CondType c ∈ CondType <$> conds)) as [Hin|Hin].
  - exists []. rewrite app_nil_r. repeat split; [simpl; lia| |done].
    intros t Ht. by apply elem_of_nil in Ht.
  - exists [CondType c]. repeat split; [simpl; lia| |].
    + by intros t ->%list_elem_of_singleton.
    + intros Hnd. apply NoDup_app. repeat split; [done| |apply NoDup_singleton].
      intros t Ht ->%list_elem_of_singleton. done.
Qed.

End ConditionWrites.

Section Outcomes.

Variable c : serviceCAOperator.

Local Abbreviation qualifying := (Forall (λ dep, qualifies c dep = true)).
Local Abbreviation allComplete := (Forall (λ dep, classifiedComplete c dep = true)).
Local Abbreviation allVersionReady :=
  (Forall (λ dep, classifiedVersionReady c dep = true)).

Local Abbreviation availableTrue reason :=
  (mkCondition OperatorStatusTypeAvailable ConditionTrue reason EmptyString).

(** Once the loop has run through, [existingDeploymentsAndReplicas] equals
    the length of the list, so one of the three tiers applies and the last
    [return false, nil] is not reached. *)
Lemma afterLoop_tiers len l s :
  existingDeploymentsAndReplicas l = len →
  ∃ b p,
    afterLoop len l s =
      ((b, None),
       Operator.mkState
         (SetOperatorCondition
            (SetOperatorCondition (Conditions s) (availableTrue (Reason p))) p)
         (Fetched s)) ∧
    ((deployment_complete l = len ∧ b = true ∧
      p = mkCondition OperatorStatusTypeProgressing ConditionFalse
            "ManagedDeploymentsCompleteAndUpdated"
            "All service-ca-operator deployments updated") ∨
     (deployment_complete l ≠ len ∧ version_ready l = len ∧ b = true ∧
      p = mkCondition OperatorStatusTypeProgressing ConditionTrue
            "ManagedDeploymentsAvailableAndUpdated" (statusMsg l)) ∨
     (deployment_complete l ≠ len ∧ version_ready l ≠ len ∧ b = false ∧
      p = mkCondition OperatorStatusTypeProgressing ConditionTrue
            "ManagedDeploymentsAvailable" (statusMsg l))).
Proof.
  intros Hex. unfold afterLoop.
  destruct (decide (deployment_complete l = len)) as [Hc|Hc].
  - rewrite (bool_decide_eq_true_2 _ Hc). run_M.
    exists true, (mkCondition OperatorStatusTypeProgressing ConditionFalse
                    "ManagedDeploymentsCompleteAndUpdated"
                    "All service-ca-operator deployments updated").
    split; [reflexivity|]. left. done.
  - rewrite (bool_decide_eq_false_2 _ Hc).
    destruct (decide (version_ready l = len)) as [Hv|Hv].
    + rewrite (bool_decide_eq_true_2 _ Hv). run_M.
      exists true, (mkCondition OperatorStatusTypeProgressing ConditionTrue
                      "ManagedDeploymentsAvailableAndUpdated" (statusMsg l)).
      split; [reflexivity|]. right. left. done.
    + rewrite (bool_decide_eq_false_2 _ Hv), (bool_decide_eq_true_2 _ Hex). run_M.
      exists false, (mkCondition OperatorStatusTypeProgressing ConditionTrue
                       "ManagedDeploymentsAvailable" (statusMsg l)).
      split; [reflexivity|]. right. right. done.
Qed.

Lemma syncStatus_through deployments s :
  qualifying deployments →
  ∃ b p,
    syncStatus c deployments s =
      ((b, None),
       Operator.mkState
         (SetOperatorCondition
            (SetOperatorCondition (Conditions s) (availableTrue (Reason p))) p)
         (Fetched s ++ deployments)) ∧
    ((allComplete deployments ∧ b = true ∧
      p = mkCondition OperatorStatusTypeProgressing ConditionFalse
            "ManagedDeploymentsCompleteAndUpdated"
            "All service-ca-operator deployments updated") ∨
     (¬ allComplete deployments ∧ allVersionReady deployments ∧ b = true ∧
      p = mkCondition OperatorStatusTypeProgressing ConditionTrue
            "ManagedDeploymentsAvailableAndUpdated"
            (statusMsg (tallyAll c deployments initLocals))) ∨
     (¬ allComplete deployments ∧ ¬ allVersionReady deployments ∧ b = false ∧
      p = mkCondition OperatorStatusTypeProgressing ConditionTrue
            "ManagedDeploymentsAvailable"
            (statusMsg (tallyAll c deployments initLocals)))).
Proof.
  intros Hall. rewrite syncStatus_eq, syncStatusLocals_through by done.
  cbv zeta.
  destruct (tallyAll_counters c deployments initLocals) as (Hv & Hx & Hc).
  simpl in Hv, Hx, Hc. rewrite Z.add_0_l in Hv, Hx, Hc.
  destruct (afterLoop_tiers (Z.of_nat (length deployments))
              (tallyAll c deployments initLocals)
              (Operator.mkState (Conditions s) (Fetched s ++ deployments)) Hx)
    as (b & p & -> & Htier).
  exists b, p. split; [done|].
  rewrite Hv, Hc, !countZ_all in Htier. exact Htier.
Qed.

Lemma syncStatus_exit pre dep post first msg r s :
  qualifying pre →
  exitOf c dep = Some (first, msg, r) →
  syncStatus c (pre ++ dep :: post) s =
  (r, Operator.mkState (notReady first msg (Conditions s))
                       (Fetched s ++ pre ++ [dep])).
Proof.
  intros Hpre He.
  by rewrite syncStatus_eq, (syncStatusLocals_exit c pre dep post first msg r).
Qed.

Lemma exitOf_first_type dep first msg r :
  exitOf c dep = Some (first, msg, r) →
  CondType first = OperatorStatusTypeProgressing ∨
  CondType first = OperatorStatusTypeFailing.
Proof.
  intros [(err & _ & _ & _ & -> & _)|(-> & _)]%exitOf_inv; [by right|by left].
Qed.

(** The boolean is [true] exactly when all deployments are counted
    version-ready. *)
Lemma syncStatus_true_iff deployments s :
  (syncStatus c deployments s).1.1 = true ↔ allVersionReady deployments.
Proof.
  destruct (first_disqualified c deployments)
    as [Hall|(pre & dep & post & -> & Hpre & Hd)].
  - destruct (syncStatus_through deployments s Hall) as (b & p & -> & Htier).
    simpl. destruct Htier as [(Hc & -> & _)|[(_ & Hv & -> & _)|(_ & Hv & -> & _)]].
    + split; [|done]. intros _. eapply Forall_impl; [exact Hc|].
      apply classifiedComplete_versionReady.
    + done.
    + done.
  - destruct (not_qualifies_exit c dep Hd) as (first & msg & r & He).
    rewrite (syncStatus_exit pre dep post first msg r s Hpre He). simpl.
    rewrite (exitOf_false c dep first msg r He). split; [done|].
    intros [_ H]%Forall_app. inversion H as [|? ? Hdep _]; subst.
    apply classifiedVersionReady_qualifies in Hdep. congruence.
Qed.

End Outcomes.

Section Messages.

Variable c : serviceCAOperator.


(** Whatever fails a check in the list, the call returns [false] and
    leaves Available=False. *)
Lemma syncStatus_not_qualifying deployments s dep :
  dep ∈ deployments →
  qualifies c dep = false →
  (syncStatus c deployments s).1.1 = false ∧
  ∃ a, FindOperatorCondition (Conditions (syncStatus c deployments s).2)
         OperatorStatusTypeAvailable = Some a ∧
       Status a = ConditionFalse.
Proof.
  intros Hin Hq.
  destruct (first_disqualified c deployments)
    as [Hall|(pre & d & post & -> & Hpre & Hd)].
  - rewrite Forall_forall in Hall. specialize (Hall _ Hin). congruence.
  - destruct (not_qualifies_exit c d Hd) as (first & msg & r & He).
    rewrite (syncStatus_exit c pre d post first msg r s Hpre He). simpl.
    split; [by apply (exitOf_false c d first msg r)|].
    exists (mkCondition OperatorStatusTypeAvailable ConditionFalse
                        "ManagedDeploymentsNotReady" msg).
    split; [|reflexivity].
    apply Find_notReady_Available.
    destruct (exitOf_first_type c d first msg r He) as [-> | ->]; done.
Qed.

End Messages.

(** ** Fetches *)

(** X1. [syncStatus] fetches the deployments in list order, one fetch per
    position, and stops right after the first one that fails a check: the
    names fetched are the whole list when all qualify, and otherwise the
    qualifying prefix followed by the first deployment that does not. *)
Theorem syncStatus_fetches_in_order
    (c : serviceCAOperator) (deployments : list string) (s : Operator.State) :
  ∃ new rest,
    deployments = new ++ rest ∧
    Fetched (syncStatus c deployments s).2 = Fetched s ++ new ∧
    ((rest = [] ∧ Forall (λ dep, qualifies c dep = true) deployments) ∨
     (∃ pre dep, new = pre ++ [dep] ∧
                 Forall (λ dep, qualifies c dep = true) pre ∧
                 qualifies c dep = false)).
Proof.
  destruct (first_disqualified c deployments)
    as [Hall|(pre & dep & post & -> & Hpre & Hd)].
  - destruct (syncStatus_through c deployments s Hall) as (b & p & -> & _).
    exists deployments, []. rewrite app_nil_r. split; [done|].
    split; [done|]. by left.
  - destruct (not_qualifies_exit c dep Hd) as (first & msg & r & He).
    rewrite (syncStatus_exit c pre dep post first msg r s Hpre He).
    exists (pre ++ [dep]), post. split; [by rewrite <- app_assoc|].
    split; [done|]. right. by exists pre, dep.
Qed.

(** ** The Available and Progressing verdicts *)

(** X2. After [syncStatus] the Available condition is always present: True with
    an empty message when every deployment passes the checks, and otherwise
    False with the reason ManagedDeploymentsNotReady, the call returning
    [false]. The version is therefore never reported while Available is
    False. *)
Theorem syncStatus_available_verdict
    (c : serviceCAOperator) (deployments : list string) (s : Operator.State) :
  ∃ a,
    FindOperatorCondition (Conditions (syncStatus c deployments s).2)
      OperatorStatusTypeAvailable = Some a ∧
    CondType a = OperatorStatusTypeAvailable ∧
    ((Forall (λ dep, qualifies c dep = true) deployments ∧
      Status a = ConditionTrue ∧ Message a = EmptyString ∧
      (syncStatus c deployments s).1.2 = None) ∨
     (¬ Forall (λ dep, qualifies c dep = true) deployments ∧
      Status a = ConditionFalse ∧ Reason a = "ManagedDeploymentsNotReady" ∧
      (syncStatus c deployments s).1.1 = false)).
Proof.
  destruct (first_disqualified c deployments)
    as [Hall|(pre & dep & post & -> & Hpre & Hd)].
  - destruct (syncStatus_through c deployments s Hall) as (b & p & -> & Htier).
    exists (mkCondition OperatorStatusTypeAvailable ConditionTrue (Reason p)
                        EmptyString).
    simpl. split.
    + rewrite Find_Set_other.
      * apply (Find_Set_same _ (mkCondition OperatorStatusTypeAvailable _ _ _)).
      * destruct Htier as [(_ & _ & ->)|[(_ & _ & _ & ->)|(_ & _ & _ & ->)]]; done.
    + split; [done|]. left. done.
  - destruct (not_qualifies_exit c dep Hd) as (first & msg & r & He).
    rewrite (syncStatus_exit c pre dep post first msg r s Hpre He). simpl.
    exists (mkCondition OperatorStatusTypeAvailable ConditionFalse
                        "ManagedDeploymentsNotReady" msg).
    split.
    + apply Find_notReady_Available.
      destruct (exitOf_first_type c dep first msg r He) as [-> | ->]; done.
    + split; [done|]. right. simpl.
      split; [|by rewrite (exitOf_false c dep first msg r He)].
      intros [_ H]%Forall_app. inversion H; subst. congruence.
Qed.

(** X3. When [syncStatus] returns without an error, the Progressing condition is
    present: it is False, with the fixed message, exactly when every
    deployment is counted complete, and True otherwise. *)
Theorem syncStatus_progressing_verdict
    (c : serviceCAOperator) (deployments : list string) (s : Operator.State) :
  (syncStatus c deployments s).1.2 = None →
  ∃ p,
    FindOperatorCondition (Conditions (syncStatus c deployments s).2)
      OperatorStatusTypeProgressing = Some p ∧
    ((Forall (λ dep, classifiedComplete c dep = true) deployments ∧
      p = mkCondition OperatorStatusTypeProgressing ConditionFalse
            "ManagedDeploymentsCompleteAndUpdated"
            "All service-ca-operator deployments updated") ∨
     (¬ Forall (λ dep, classifiedComplete c dep = true) deployments ∧
      CondType p = OperatorStatusTypeProgressing ∧
      Status p = ConditionTrue)).
Proof.
  destruct (first_disqualified c deployments)
    as [Hall|(pre & dep & post & -> & Hpre & Hd)].
  - destruct (syncStatus_through c deployments s Hall) as (b & p & -> & Htier).
    simpl. intros _. exists p. split.
    + destruct Htier as [(_ & _ & ->)|[(_ & _ & _ & ->)|(_ & _ & _ & ->)]];
        apply (Find_Set_same _ (mkCondition OperatorStatusTypeProgressing _ _ _)).
    + destruct Htier as [(Hc & _ & ->)|[(Hc & _ & _ & ->)|(Hc & _ & _ & ->)]];
        [by left|by right|by right].
  - destruct (not_qualifies_exit c dep Hd) as (first & msg & r & He).
    rewrite (syncStatus_exit c pre dep post first msg r s Hpre He). simpl.
    intros Hr.
    apply exitOf_inv in He as [(err & _ & _ & _ & _ & ->)|(-> & _ & _)];
      [done|].
    exists (progressingNotReady msg). split.
    + apply (Find_notReady_first (progressingNotReady msg)). done.
    + right. split; [|done].
      intros [_ H]%Forall_app. inversion H as [|? ? Hdep _]; subst.
      apply classifiedComplete_qualifies in Hdep. congruence.
Qed.


(** ** Running [syncStatus] again *)

(** X5. [syncStatus] reconciles: run again on the conditions it produced, with
    the deployments unchanged, it returns the same pair and leaves the
    conditions exactly as they are. The returned pair does not depend on
    the conditions the call starts from. *)
Theorem syncStatus_again
    (c : serviceCAOperator) (deployments : list string) (s t : Operator.State) :
  (syncStatus c deployments t).1 = (syncStatus c deployments s).1 ∧
  Conditions (syncStatus c deployments (syncStatus c deployments s).2).2 =
    Conditions (syncStatus c deployments s).2.
Proof.
  destruct (first_disqualified c deployments)
    as [Hall|(pre & dep & post & -> & Hpre & Hd)].
  - destruct (syncStatus_through c deployments s Hall) as (b & p & Hs & Htier).
    destruct (syncStatus_through c deployments t Hall) as (b' & p' & Ht & Htier').
    assert (b' = b ∧ p' = p) as [-> ->].
    { destruct Htier as [(H1 & -> & ->)|[(H1 & H2 & -> & ->)|(H1 & H2 & -> & ->)]];
        destruct Htier' as [(H1' & -> & ->)|[(H1' & H2' & -> & ->)
                                            |(H1' & H2' & -> & ->)]];
        done. }
    rewrite Ht, Hs. split; [done|]. simpl.
    destruct (syncStatus_through c deployments
                (Operator.mkState
                   (SetOperatorCondition
                      (SetOperatorCondition (Conditions s)
                         (mkCondition OperatorStatusTypeAvailable ConditionTrue
                            (Reason p) EmptyString)) p)
                   (Fetched s ++ deployments)) Hall)
      as (b2 & p2 & H2 & Htier2).
    assert (p2 = p) as ->.
    { destruct Htier as [(H1 & _ & ->)|[(H1 & H3 & _ & ->)|(H1 & H3 & _ & ->)]];
        destruct Htier2 as [(H1' & _ & ->)|[(H1' & H2' & _ & ->)
                                           |(H1' & H2' & _ & ->)]];
        done. }
    rewrite H2. simpl.
    assert (CondType p = OperatorStatusTypeProgressing) as Hp.
    { destruct Htier as [(_ & _ & ->)|[(_ & _ & _ & ->)|(_ & _ & _ & ->)]]; done. }
    rewrite (Set_recorded _ (mkCondition OperatorStatusTypeAvailable _ _ _)).
    + apply Set_recorded. apply Find_Set_same.
    + simpl. rewrite Find_Set_other by (rewrite Hp; done).
      apply (Find_Set_same _ (mkCondition OperatorStatusTypeAvailable _ _ _)).
  - destruct (not_qualifies_exit c dep Hd) as (first & msg & r & He).
    rewrite !(syncStatus_exit c pre dep post first msg r _ Hpre He).
    split; [done|]. simpl. unfold notReady.
    assert (CondType first ≠ OperatorStatusTypeAvailable) as Hf.
    { destruct (exitOf_first_type c dep first msg r He) as [-> | ->]; done. }
    rewrite (Set_recorded _ first).
    + apply Set_recorded.
      apply (Find_Set_same _ (mkCondition OperatorStatusTypeAvailable _ _ _)).
    + rewrite Find_Set_other by (simpl; congruence). apply Find_Set_same.
Qed.

(** ** The shape of the condition set *)

(** Every run of [syncStatus] amounts to two condition writes, both to
    names among Available, Progressing and Failing. *)
Lemma syncStatus_two_writes
    (c : serviceCAOperator) (deployments : list string) (s : Operator.State) :
  ∃ c1 c2,
    managedType (CondType c1) = true ∧ managedType (CondType c2) = true ∧
    Conditions (syncStatus c deployments s).2 =
      SetOperatorCondition (SetOperatorCondition (Conditions s) c1) c2.
Proof.
  destruct (first_disqualified c deployments)
    as [Hall|(pre & dep & post & -> & Hpre & Hd)].
  - destruct (syncStatus_through c deployments s Hall) as (b & p & -> & Htier).
    eexists _, p. split; [|split; [|reflexivity]]; [done|].
    destruct Htier as [(_ & _ & ->)|[(_ & _ & _ & ->)|(_ & _ & _ & ->)]]; done.
  - destruct (not_qualifies_exit c dep Hd) as (first & msg & r & He).
    rewrite (syncStatus_exit c pre dep post first msg r s Hpre He).
    eexists first, _. split; [|split; [|reflexivity]]; [|done].
    destruct (exitOf_first_type c dep first msg r He) as [-> | ->]; done.
Qed.

(** X6. [syncStatus] never removes or reorders a condition: the names recorded
    before are still there, in the same order, followed by at most two new
    ones, each of them Available, Progressing or Failing. A set in which no
    name occurs twice stays so, and a condition of any other name keeps its
    position and its content. *)
Theorem syncStatus_keeps_condition_set
    (c : serviceCAOperator) (deployments : list string) (s : Operator.State) :
  (∃ added,
     CondType <$> Conditions (syncStatus c deployments s).2 =
       (CondType <$> Conditions s) ++ added ∧
     (length added ≤ 2)%nat ∧
     Forall (λ t, managedType t = true) added) ∧
  (NoDup (CondType <$> Conditions s) →
   NoDup (CondType <$> Conditions (syncStatus c deployments s).2)) ∧
  (∀ i c0, Conditions s !! i = Some c0 →
           managedType (CondType c0) = false →
           Conditions (syncStatus c deployments s).2 !! i = Some c0).
Proof.
  destruct (syncStatus_two_writes c deployments s) as (c1 & c2 & H1 & H2 & ->).
  destruct (Set_names_app (Conditions s) c1) as (a1 & E1 & L1 & T1 & N1).
  destruct (Set_names_app (SetOperatorCondition (Conditions s) c1) c2)
    as (a2 & E2 & L2 & T2 & N2).
  split; [|split].
  - exists (a1 ++ a2). rewrite E2, E1, <- app_assoc. split; [done|].
    split; [rewrite length_app; lia|].
    apply Forall_app. split; apply Forall_forall; intros t Ht.
    + by rewrite (T1 t Ht).
    + by rewrite (T2 t Ht).
  - intros Hnd. apply N2, N1, Hnd.
  - intros i c0 Hi Hc0. apply Set_lookup_other; [apply Set_lookup_other|];
      try done; congruence.
Qed.

(** ** The three readiness predicates *)

(** X7. A version-ready deployment is available. A deployment that is complete
    with respect to its desired replica count (1 when unset) is available,
    and then version-ready, exactly when that count is positive: one scaled
    to zero is complete and yet not available. *)
Theorem deployment_status_tiers (deploy : Deployment) :
  (isDeploymentStatusAvailableAndUpdated deploy = true →
   isDeploymentStatusAvailable deploy = true) ∧
  (isDeploymentStatusComplete deploy = true →
   isDeploymentStatusAvailableAndUpdated deploy =
     isDeploymentStatusAvailable deploy ∧
   isDeploymentStatusAvailable deploy =
     bool_decide (default 1 (SpecReplicas deploy) > 0)).
Proof.
  unfold isDeploymentStatusAvailableAndUpdated, isDeploymentStatusAvailable,
    isDeploymentStatusComplete.
  split.
  - by intros [[? _]%andb_true_iff _]%andb_true_iff.
  - rewrite !andb_true_iff, !bool_decide_eq_true.
    intros [[[Hup Hrep] Hav] Hgen].
    replace (match SpecReplicas deploy with Some r => r | None => 1 end)
      with (default 1 (SpecReplicas deploy)) in * by by destruct (SpecReplicas deploy).
    split.
    + rewrite (bool_decide_eq_true_2 _ Hgen).
      rewrite (bool_decide_eq_true_2 (UpdatedReplicas _ = Replicas _))
        by congruence.
      by rewrite !andb_true_r.
    + by rewrite Hav.
Qed.

(** X8. A list that holds a deployment scaled to zero replicas never reports
    the version nor Available=True, even when that deployment is complete
    and all the others are rolled out. *)
Theorem syncStatus_scaled_to_zero
    (c : serviceCAOperator) (deployments : list string) (s : Operator.State)
    (dep : string) (existing : Deployment) (replicas : Z) :
  dep ∈ deployments →
  appsv1Client c dep = GetOk existing →
  SpecReplicas existing = Some replicas →
  (replicas ≤ 0)%Z →
  isDeploymentStatusComplete existing = true →
  (syncStatus c deployments s).1.1 = false ∧
  ∃ a, FindOperatorCondition (Conditions (syncStatus c deployments s).2)
         OperatorStatusTypeAvailable = Some a ∧
       Status a = ConditionFalse.
Proof.
  intros Hin Hget Hspec Hle Hc.
  apply (syncStatus_not_qualifying c deployments s dep); [done|].
  unfold qualifies. rewrite Hget.
  apply andb_false_iff. right.
  revert Hc. unfold isDeploymentStatusComplete, isDeploymentStatusAvailable.
  rewrite Hspec, !andb_true_iff, !bool_decide_eq_true.
  intros [[_ Hav] _]. apply bool_decide_eq_false_2. lia.
Qed.

(** ** The version-reporting decision over lists *)

(** X9. The boolean for a concatenation is the conjunction of the booleans for
    the parts, whatever the conditions each run starts from. *)
Theorem syncStatus_reports_version_app
    (c : serviceCAOperator) (l1 l2 : list string) (s s1 s2 : Operator.State) :
  (syncStatus c (l1 ++ l2) s).1.1 =
  (syncStatus c l1 s1).1.1 && (syncStatus c l2 s2).1.1.
Proof.
  apply Bool.eq_true_iff_eq.
  rewrite andb_true_iff, !syncStatus_true_iff. apply Forall_app.
Qed.

(** X10. The boolean does not depend on the order in which the deployments are
    listed (the returned error and the messages do). *)
Theorem syncStatus_reports_version_perm
    (c : serviceCAOperator) (l1 l2 : list string) (s : Operator.State) :
  l1 ≡ₚ l2 →
  (syncStatus c l1 s).1.1 = (syncStatus c l2 s).1.1.
Proof.
  intros Hp. apply Bool.eq_true_iff_eq.
  rewrite !syncStatus_true_iff. by rewrite Hp.
Qed.

(** ** Failing and Progressing *)

(** X11. A call that returns an error does not write Progressing: that
    condition is as it was before the call. *)
Theorem syncStatus_error_keeps_progressing
    (c : serviceCAOperator) (deployments : list string) (s : Operator.State)
    (err : error) :
  (syncStatus c deployments s).1.2 = Some err →
  FindOperatorCondition (Conditions (syncStatus c deployments s).2)
    OperatorStatusTypeProgressing =
  FindOperatorCondition (Conditions s) OperatorStatusTypeProgressing.
Proof.
  destruct (first_disqualified c deployments)
    as [Hall|(pre & dep & post & -> & Hpre & Hd)].
  - by destruct (syncStatus_through c deployments s Hall) as (b & p & -> & _).
  - destruct (not_qualifies_exit c dep Hd) as (first & msg & r & He).
    rewrite (syncStatus_exit c pre dep post first msg r s Hpre He). simpl.
    apply exitOf_inv in He as [(e & _ & _ & _ & -> & _)|(_ & -> & _)]; [|done].
    intros _. unfold notReady. by rewrite !Find_Set_other.
Qed.

(** X12. [setFailingFalse] after [setFailingTrue] leaves the conditions as if the
    failure had never been recorded: Failing is False with the new reason
    and an empty message, at the position it had. *)
Theorem setFailingFalse_after_setFailingTrue
    (reason message reason' : string) (s : Operator.State) :
  (setFailingFalse reason' (setFailingTrue reason message s).2).2 =
    (setFailingFalse reason' s).2 ∧
  FindOperatorCondition (Conditions (setFailingFalse reason' s).2)
    OperatorStatusTypeFailing =
    Some (mkCondition OperatorStatusTypeFailing ConditionFalse reason'
            EmptyString).
Proof.
  unfold setFailingFalse, setFailingTrue, setCondition. simpl. split.
  - by rewrite Set_overwrite.
  - apply (Find_Set_same _ (mkCondition OperatorStatusTypeFailing _ _ _)).
Qed.

(* ===================================================================== *)
(** * Further properties of the injector *)
(* ===================================================================== *)

Section SyncMore.

Variable HasInjectCABundleAnnotation : ConfigMap → bool.
Variable InjectionDataKey : string.
Variable ic : configMapCABundleInjectionController.

Local Abbreviation wanted := ({[ InjectionDataKey := ca ic ]} : gmap string string).
Local Abbreviation submitted := (injected InjectionDataKey (ca ic)).
Local Abbreviation sync := (Sync HasInjectCABundleAnnotation InjectionDataKey ic).
Local Abbreviation ensure :=
  (ensureConfigMapCABundleInjection InjectionDataKey ic).

(** A pointer that holds no object makes [Sync] panic. *)
Lemma Sync_dangling obj s : Heap s !! obj = None → sync obj s = None.
Proof.
  intros Hobj. unfold Sync, deref, mbind, Injector.M_bind. simpl.
  by rewrite Hobj.
Qed.

(** X13. [Sync] never writes to an object it did not allocate: every object of
    the heap, the cached one it was handed included, is afterwards what it
    was before, and at most one copy has been added. *)
Theorem Sync_leaves_cache (obj : nat) (r : option error) (s s' : Injector.State) :
  sync obj s = Some (r, s') →
  (∃ copies, Heap s' = Heap s ++ copies ∧ (length copies ≤ 1)%nat) ∧
  (∀ p cm, Heap s !! p = Some cm → Heap s' !! p = Some cm).
Proof.
  intros Hs.
  assert (∃ copies, Heap s' = Heap s ++ copies ∧ (length copies ≤ 1)%nat)
    as (copies & Hh & Hl).
  { destruct (Heap s !! obj) as [cm|] eqn:Hobj.
    - rewrite (Sync_eq HasInjectCABundleAnnotation InjectionDataKey ic obj cm s Hobj) in Hs.
      destruct (HasInjectCABundleAnnotation cm); simpl in Hs.
      + case_bool_decide; injection Hs as <- <-; simpl; eexists [_];
          (split; [reflexivity|simpl; lia]).
      + injection Hs as <- <-. exists []. rewrite app_nil_r. split; [done|simpl; lia].
    - rewrite Sync_dangling in Hs by done. done. }
  split; [by exists copies|].
  intros p cm Hp. rewrite Hh. by apply lookup_app_l_Some.
Qed.

(** X14. [Sync] returns an error only when it submitted the injected copy of an
    annotated object that was not up to date and the store answered with
    that error; the cached object is still as it was, so the retry submits
    the same copy. When the store accepts, or nothing is submitted, [Sync]
    returns [nil]. *)
Theorem Sync_error_from_update (obj : nat) (cm : ConfigMap) (s : Injector.State) :
  Heap s !! obj = Some cm →
  ∃ r s',
    sync obj s = Some (r, s') ∧
    (∀ err, r = Some err →
       HasInjectCABundleAnnotation cm = true ∧ Data cm ≠ wanted ∧
       configMapClient ic (submitted cm) = Some err ∧
       Updates s' = Updates s ++ [submitted cm] ∧
       Heap s' !! obj = Some cm) ∧
    (HasInjectCABundleAnnotation cm = true → Data cm ≠ wanted →
       r = configMapClient ic (submitted cm) ∧
       Updates s' = Updates s ++ [submitted cm]).
Proof.
  intros Hobj.
  destruct (Sync_cases HasInjectCABundleAnnotation InjectionDataKey ic obj cm s Hobj) as [(s' & Hs & Hu)|(Hann & Hd & Hs)].
  - exists None, s'. split; [done|]. split; [done|].
    intros Hann Hd. exfalso.
    rewrite (Sync_eq HasInjectCABundleAnnotation InjectionDataKey ic obj cm s Hobj), Hann in Hs. simpl in Hs.
    rewrite (bool_decide_eq_false_2 _ Hd) in Hs.
    injection Hs as _ <-. simpl in Hu.
    apply (f_equal length) in Hu. rewrite length_app in Hu. simpl in Hu. lia.
  - eexists _, _. split; [exact Hs|]. simpl. split; [|done].
    intros err Herr. repeat split; try done.
    by apply lookup_app_l_Some.
Qed.

(** X15. [ensureConfigMapCABundleInjection] skips the [Update] exactly when the
    data mapping is the single entry for the injection key with the current
    CA; in every other case it issues exactly one: when the key is missing,
    when it holds another value, and when any other entry is present. It
    does not look at the annotation. *)
Theorem ensure_skips_iff (current : nat) (cm : ConfigMap) (s : Injector.State) :
  Heap s !! current = Some cm →
  updatesIssued (ensure current) s =
    Some (if bool_decide (Data cm = wanted) then 0 else 1)%nat ∧
  (Data cm !! InjectionDataKey = None →
   updatesIssued (ensure current) s = Some 1%nat) ∧
  (∀ v, Data cm !! InjectionDataKey = Some v → v ≠ ca ic →
   updatesIssued (ensure current) s = Some 1%nat) ∧
  (size (Data cm) ≠ 1%nat →
   updatesIssued (ensure current) s = Some 1%nat).
Proof.
  intros Hcur.
  assert (updatesIssued (ensure current) s =
          Some (if bool_decide (Data cm = wanted) then 0 else 1)%nat) as Hu.
  { unfold updatesIssued. rewrite (ensure_eq InjectionDataKey ic current cm s Hcur).
    case_bool_decide; simpl; f_equal; rewrite ?length_app; simpl; lia. }
  split; [exact Hu|].
  repeat split.
  - intros Hnone. rewrite Hu, bool_decide_eq_false_2; [done|].
    intros Hd. rewrite Hd, lookup_singleton_eq in Hnone. done.
  - intros v Hv Hne. rewrite Hu, bool_decide_eq_false_2; [done|].
    intros Hd. rewrite Hd, lookup_singleton_eq in Hv. congruence.
  - intros Hsz. rewrite Hu, bool_decide_eq_false_2; [done|].
    intros Hd. rewrite Hd, map_size_singleton in Hsz. done.
Qed.

End SyncMore.

(* ===================================================================== *)
(** * The further properties on the sample inputs *)
(* ===================================================================== *)

Import MoreSamples.

(** A complete deployment and one scaled to zero: the latter fails the
    availability check although it is complete. *)
Example syncStatus_with_scaled_down :
  syncStatus clusterIdle ["signer"; "scaled-down"] settled =
  ((false, None),
   Operator.mkState
     [ mkCondition "Available" ConditionFalse "ManagedDeploymentsNotReady"
                   "Deployment scaled-down does not have available replicas";
       mkCondition "Progressing" ConditionTrue "ManagedDeploymentsNotReady"
                   "Deployment scaled-down does not have available replicas";
       mkCondition "Upgradeable" ConditionTrue "AsExpected" EmptyString ]
     ["signer"; "scaled-down"]).
Proof. vm_compute. reflexivity. Qed.

(** The store rejects the update: the error is returned, the update is
    logged, the cached object is untouched. *)
Example Sync_rejected :
  Sync hasInjectAnnotation dataKey rejected 0 staleCache =
  Some (Some conflict,
        Injector.mkState
          [outdated; injected dataKey (ca rejected) outdated]
          [injected dataKey (ca rejected) outdated]).
Proof. vm_compute. reflexivity. Qed.

Lemma syncStatus_progressing_verdict_witness :
  ∃ p,
    FindOperatorCondition
      (Conditions (syncStatus cluster ["signer"; "apiservice-injector"] before).2)
      OperatorStatusTypeProgressing = Some p ∧
    ((Forall (λ dep, classifiedComplete cluster dep = true)
        ["signer"; "apiservice-injector"] ∧
      p = mkCondition OperatorStatusTypeProgressing ConditionFalse
            "ManagedDeploymentsCompleteAndUpdated"
            "All service-ca-operator deployments updated") ∨
     (¬ Forall (λ dep, classifiedComplete cluster dep = true)
          ["signer"; "apiservice-injector"] ∧
      CondType p = OperatorStatusTypeProgressing ∧
      Status p = ConditionTrue)).
Proof.
  apply (syncStatus_progressing_verdict
           cluster ["signer"; "apiservice-injector"] before).
  vm_compute. reflexivity.
Defined.


Lemma syncStatus_keeps_condition_set_witness :
  NoDup (CondType <$> Conditions (syncStatus cluster ["signer"] before).2).
Proof.
  apply (proj1 (proj2 (syncStatus_keeps_condition_set cluster ["signer"] before))).
  apply (bool_decide_unpack _). vm_compute. exact I.
Defined.

Lemma deployment_status_tiers_witness :
  isDeploymentStatusAvailableAndUpdated scaledDown =
    isDeploymentStatusAvailable scaledDown ∧
  isDeploymentStatusAvailable scaledDown =
    bool_decide (default 1%Z (SpecReplicas scaledDown) > 0)%Z.
Proof.
  apply (proj2 (deployment_status_tiers scaledDown)).
  vm_compute. reflexivity.
Defined.

Lemma syncStatus_scaled_to_zero_witness :
  (syncStatus clusterIdle ["signer"; "scaled-down"] settled).1.1 = false ∧
  ∃ a, FindOperatorCondition
         (Conditions (syncStatus clusterIdle ["signer"; "scaled-down"] settled).2)
         OperatorStatusTypeAvailable = Some a ∧
       Status a = ConditionFalse.
Proof.
  apply (syncStatus_scaled_to_zero clusterIdle ["signer"; "scaled-down"] settled
           "scaled-down" scaledDown 0).
  - apply list_elem_of_In. simpl. auto.
  - reflexivity.
  - reflexivity.
  - lia.
  - vm_compute. reflexivity.
Defined.

Lemma syncStatus_reports_version_perm_witness :
  (syncStatus cluster ["signer"; "configmap-injector"] before).1.1 =
  (syncStatus cluster ["configmap-injector"; "signer"] before).1.1.
Proof.
  apply (syncStatus_reports_version_perm cluster
           ["signer"; "configmap-injector"] ["configmap-injector"; "signer"]
           before).
  apply perm_swap.
Defined.

Lemma syncStatus_error_keeps_progressing_witness :
  FindOperatorCondition
    (Conditions (syncStatus cluster ["signer"; "unreachable"] settled).2)
    OperatorStatusTypeProgressing =
  FindOperatorCondition (Conditions settled) OperatorStatusTypeProgressing.
Proof.
  apply (syncStatus_error_keeps_progressing cluster ["signer"; "unreachable"]
           settled timeout).
  vm_compute. reflexivity.
Defined.

Lemma Sync_leaves_cache_witness :
  (∃ copies,
     [annotated; plain; injected dataKey (ca injector) annotated] =
       Heap cache ++ copies ∧ (length copies ≤ 1)%nat) ∧
  (∀ p cm, Heap cache !! p = Some cm →
     [annotated; plain; injected dataKey (ca injector) annotated] !! p = Some cm).
Proof.
  apply (Sync_leaves_cache hasInjectAnnotation dataKey injector 0 None cache
           (Injector.mkState
              [annotated; plain; injected dataKey (ca injector) annotated]
              [injected dataKey (ca injector) annotated])).
  vm_compute. reflexivity.
Defined.

Lemma Sync_error_from_update_witness :
  ∃ r s',
    Sync hasInjectAnnotation dataKey rejected 0 staleCache = Some (r, s') ∧
    (∀ err, r = Some err →
       hasInjectAnnotation outdated = true ∧
       Data outdated ≠ {[ dataKey := ca rejected ]} ∧
       configMapClient rejected (injected dataKey (ca rejected) outdated) =
         Some err ∧
       Updates s' = Updates staleCache ++ [injected dataKey (ca rejected) outdated] ∧
       Heap s' !! 0%nat = Some outdated) ∧
    (hasInjectAnnotation outdated = true →
     Data outdated ≠ {[ dataKey := ca rejected ]} →
       r = configMapClient rejected (injected dataKey (ca rejected) outdated) ∧
       Updates s' = Updates staleCache ++ [injected dataKey (ca rejected) outdated]).
Proof.
  apply (Sync_error_from_update hasInjectAnnotation dataKey rejected
           0 outdated staleCache).
  reflexivity.
Defined.

Lemma ensure_skips_iff_witness :
  updatesIssued (ensureConfigMapCABundleInjection dataKey injector 0) staleCache =
    Some 1%nat.
Proof.
  apply (proj1 (proj2 (proj2 (ensure_skips_iff dataKey injector 0 outdated
                                staleCache eq_refl)))
           "-----OLD CERTIFICATE-----").
  - vm_compute. reflexivity.
  - discriminate.
Defined.
